(** * Perecmeshnik: the transcript pipeline of [bot.py]

    A shallow embedding of the functions of [bot.py] that clean an exported
    chat ([clean_data]), render the style prompt ([generate_prompt]), call
    the completion service ([get_ai_response]) and drive the conversation
    ([handle_json], [handle_interlocutor_name], [chat_mode], ...), followed
    by the properties the specification states about them.

    Python values are modelled as the code meets them: a [str] is a list of
    Unicode code points, an [int] is a [Z], the value returned by
    [json.load] is a tree [json] whose objects keep their items in order,
    and a Python exception is a value of [py_exn] carried by [result]. *)

From Stdlib Require Import ZArith NArith Ascii String List.
From Stdlib Require Import Floats.SpecFloat.
From stdpp Require Import gmap list strings pretty.

Set Default Proof Using "Type".
Set Warnings "-clear-no-such-hyp".
Local Open Scope Z_scope.

(** ** Python strings *)

(** A Python [str]: a sequence of code points. *)
Abbreviation str := (list N).

Module Utf8.
(** The literals of the source are written here as Rocq strings, which
    hold the UTF-8 bytes of the text; [decode] turns them into the code
    points Python works on. *)

Definition cont (b : N) : N := N.land b 63.

Fixpoint decode (bs : list N) : str :=
  match bs with
  | [] => []
  | b0 :: r0 =>
    if (b0 <? 128)%N then b0 :: decode r0
    else match r0 with
    | [] => [b0]
    | b1 :: r1 =>
      if (b0 <? 224)%N then
        (N.shiftl (N.land b0 31) 6 + cont b1)%N :: decode r1
      else match r1 with
      | [] => [b0; b1]
      | b2 :: r2 =>
        if (b0 <? 240)%N then
          (N.shiftl (N.land b0 15) 12 + N.shiftl (cont b1) 6 + cont b2)%N
            :: decode r2
        else match r2 with
        | [] => [b0; b1; b2]
        | b3 :: r3 =>
          (N.shiftl (N.land b0 7) 18 + N.shiftl (cont b1) 12
           + N.shiftl (cont b2) 6 + cont b3)%N :: decode r3
        end
      end
    end
  end.

Definition lit (s : string) : str :=
  decode (map N_of_ascii (list_ascii_of_string s)).
End Utf8.

Notation "'u' s" := (Utf8.lit s%string) (at level 1, s at level 0, only parsing).

(** [Py_UNICODE_ISSPACE]: the code points [str.strip()] removes. *)
Definition py_isspace (c : N) : bool :=
  ((9 <=? c) && (c <=? 13) || (28 <=? c) && (c <=? 32)
   || (c =? 133) || (c =? 160) || (c =? 5760)
   || (8192 <=? c) && (c <=? 8202)
   || (c =? 8232) || (c =? 8233) || (c =? 8239) || (c =? 8287)
   || (c =? 12288))%N.

Fixpoint py_lstrip (s : str) : str :=
  match s with
  | c :: r => if py_isspace c then py_lstrip r else s
  | [] => []
  end.

Definition py_rstrip (s : str) : str := rev (py_lstrip (rev s)).

(** [s.strip()]: drop the leading, then the trailing whitespace. *)
Definition py_strip (s : str) : str := py_rstrip (py_lstrip s).

(** Truth value of a [str]: the empty string is false. *)
Definition str_truthy (s : str) : bool :=
  match s with [] => false | _ :: _ => true end.

(** ** Exceptions and fallible computations *)

(** The exceptions the modelled operations raise. All of them derive from
    [Exception], the class the [except Exception] clauses of the source
    catch; signals of the interpreter such as [KeyboardInterrupt] are
    outside the model. *)
Inductive py_exn : Type :=
  | TypeError
  | KeyError
  | IndexError
  | AttributeError
  | OSError
  | UnicodeEncodeError
  | JSONDecodeError
  | OpenAIError (detail : str).

Inductive result (A : Type) : Type :=
  | Ok (a : A)
  | Raise (e : py_exn).
Arguments Ok {A} a.
Arguments Raise {A} e.

#[global] Instance result_ret : MRet result := fun A a => Ok a.
#[global] Instance result_bind : MBind result := fun A B f r =>
  match r with Ok a => f a | Raise e => Raise e end.
#[global] Instance result_fmap : FMap result := fun A B f r =>
  match r with Ok a => Ok (f a) | Raise e => Raise e end.

Definition raises {A} (r : result A) : bool :=
  match r with Ok _ => false | Raise _ => true end.

(** ** JSON values as [json.load] returns them *)

#[warnings="-register-all"]
Inductive json : Type :=
  | JNull
  | JBool (b : bool)
  | JInt (n : Z)
  | JFloat (f : spec_float)
  | JStr (s : str)
  | JList (items : list json)
  | JDict (items : list (str * json)).

(** [key in d] and [d.get(key)] on the items of a dict. *)
Fixpoint dict_get (key : str) (d : list (str * json)) : option json :=
  match d with
  | [] => None
  | (k, v) :: r => if decide (k = key) then Some v else dict_get key r
  end.

(** [v == s] for a [str] [s]: only an equal [str] compares equal. *)
Definition py_eq_str (v : json) (s : str) : bool :=
  match v with
  | JStr t => bool_decide (t = s)
  | _ => false
  end.

(** ** [clean_data] *)

Definition DEFAULT_MESSAGES_COUNT : Z := 750.

(** The dict literal appended to [cleaned_messages]: ["from"] holds
    [msg["from"]], ["text"] the extracted [str], ["date"] holds
    [msg["date"]], or the empty [str] when [msg] has no such key. *)
Record cleaned_message : Type := CleanedMessage {
  cm_from : json;
  cm_text : str;
  cm_date : json;
}.

(** The items the generator hands to [join]: [entity["text"]] of every
    [entity] that is a dict with a ["text"] key. *)
Definition fragment_texts (entities : list json) : list json :=
  omap (fun entity =>
          match entity with
          | JDict e => dict_get (u"text") e
          | _ => None
          end) entities.

(** [join] with the empty separator: raises [TypeError] on an item that is
    not a [str]. *)
Fixpoint py_join_empty (items : list json) : result str :=
  match items with
  | [] => Ok []
  | JStr s :: r => t ← py_join_empty r; Ok (s ++ t)
  | _ :: _ => Raise TypeError
  end.

(** Lines 62-71: the text of a message dict. *)
Definition extract_text (msg : list (str * json)) : result str :=
  match dict_get (u"text") msg with
  | Some (JStr s) => Ok s
  | Some (JList entities) => py_join_empty (fragment_texts entities)
  | _ => Ok []
  end.

(** Lines 54-80, one iteration of the loop after the [break] test:
    [Ok None] is [continue], [Ok (Some c)] appends [c]. *)
Definition clean_message (interlocutor_name : str) (msg : json)
  : result (option cleaned_message) :=
  match msg with
  | JDict d =>
    match dict_get (u"from") d with
    | Some sender =>
      if py_eq_str sender interlocutor_name then
        text ← extract_text d;
        if str_truthy (py_strip text) then
          Ok (Some {| cm_from := sender;
                      cm_text := text;
                      cm_date := default (JStr []) (dict_get (u"date") d) |})
        else Ok None
      else Ok None
    | None => Ok None
    end
  | _ => Ok None
  end.

(** The [for] loop over the reversed list, [cleaned] being
    [cleaned_messages]. *)
Fixpoint clean_loop (interlocutor_name : str) (max_messages : Z)
    (msgs : list json) (cleaned : list cleaned_message)
  : result (list cleaned_message) :=
  match msgs with
  | [] => Ok cleaned
  | msg :: rest =>
    if Z.of_nat (length cleaned) >=? max_messages then Ok cleaned
    else
      kept ← clean_message interlocutor_name msg;
      match kept with
      | Some c => clean_loop interlocutor_name max_messages rest (cleaned ++ [c])
      | None => clean_loop interlocutor_name max_messages rest cleaned
      end
  end.

Definition clean_data (data : list json) (interlocutor_name : str)
    (max_messages : Z) : result (list cleaned_message) :=
  cleaned ← clean_loop interlocutor_name max_messages (rev data) [];
  Ok (rev cleaned).

(** *** What the specification calls a qualifying message *)

(** A structured record whose sender equals the name and whose flattened
    text is not blank after trimming. *)
Definition qualifies (interlocutor_name : str) (msg : json) : bool :=
  match msg with
  | JDict d =>
    match dict_get (u"from") d, extract_text d with
    | Some sender, Ok text =>
      py_eq_str sender interlocutor_name && str_truthy (py_strip text)
    | _, _ => false
    end
  | _ => false
  end.

(** [cleans name msg c]: the loop keeps [msg] and appends [c] for it. *)
Definition cleans (interlocutor_name : str) (msg : json)
    (c : cleaned_message) : Prop :=
  clean_message interlocutor_name msg = Ok (Some c).

(** The record kept for [msg], if the loop keeps it. *)
Definition keep (interlocutor_name : str) (msg : json)
  : option cleaned_message :=
  match clean_message interlocutor_name msg with
  | Ok kept => kept
  | Raise _ => None
  end.

(** [isinstance(v, str)] *)
Definition is_str (v : json) : bool :=
  match v with JStr _ => true | _ => false end.

(** The last [n] entries of a list. *)
Definition last_n {A} (n : nat) (l : list A) : list A :=
  drop (length l - n) l.


(** ** [generate_prompt] *)

Definition of_string (s : string) : str :=
  map N_of_ascii (list_ascii_of_string s).

(** [sep.join(items)] for [str] items, left to right. *)
Definition py_join (sep : str) (items : list str) : str :=
  match items with
  | [] => []
  | first :: rest => fold_left (fun acc item => acc ++ sep ++ item) rest first
  end.

Definition PROMPT_HEAD : str :=
  u"Ты имитируешь стиль общения человека по имени ".
Definition PROMPT_EXAMPLES : str :=
  [46; 10]%N ++ u"Вот примеры его сообщений:" ++ [10; 10]%N.
Definition PROMPT_RULES : str :=
  [10; 10]%N
  ++ u"Отвечай так, как бы ответил этот человек, сохраняя его стиль, "
  ++ u"манеру речи и особенности общения. Не упоминай, что ты ИИ. "
  ++ u"Длина ответа должна быть естественной для диалога."
  ++ u"Отвечай ТОЛЬКО текстом сообщения, без указания имени, даты или других метаданных.".

Section Prompt.
(** [str(v)] of a value that is not a [str] ([None], numbers, lists,
    dicts): Python's own formatting, taken as given. *)
Variable py_repr : json -> str.

(** What an f-string field [{v}] renders. *)
Definition py_format (v : json) : str :=
  match v with
  | JStr s => s
  | _ => py_repr v
  end.

(** [f"{msg['from']} ({msg['date']}): {msg['text']}"] *)
Definition prompt_line (msg : cleaned_message) : str :=
  py_format (cm_from msg) ++ u" (" ++ py_format (cm_date msg) ++ u"): "
  ++ cm_text msg.

Definition generate_prompt (interlocutor_name : str)
    (cleaned_data : list cleaned_message) : str :=
  let messages := py_join [10%N] (map prompt_line cleaned_data) in
  PROMPT_HEAD ++ interlocutor_name ++ PROMPT_EXAMPLES
  ++ messages ++ PROMPT_RULES.

End Prompt.

(** *** The builder as the specification words it

    A CleanedMessage of the specification holds three strings. Each is
    rendered as [{from} ({date}): {text}], the lines are joined by newlines
    in the order of the transcript, and the result is put inside the fixed
    template. *)
Record spec_message : Type := SpecMessage {
  sm_from : str;
  sm_date : str;
  sm_text : str;
}.

Definition render_spec (m : spec_message) : str :=
  sm_from m ++ [32; 40]%N ++ sm_date m ++ [41; 58; 32]%N ++ sm_text m.

Fixpoint join_lines (lines : list str) : str :=
  match lines with
  | [] => []
  | [l] => l
  | l :: rest => l ++ [10%N] ++ join_lines rest
  end.

Definition build_spec (name : str) (transcript : list spec_message) : str :=
  PROMPT_HEAD ++ name ++ PROMPT_EXAMPLES
  ++ join_lines (render_spec <$> transcript) ++ PROMPT_RULES.

(** The dict [clean_data] builds for a message whose sender and date are
    strings. *)
Definition of_spec (m : spec_message) : cleaned_message :=
  {| cm_from := JStr (sm_from m); cm_text := sm_text m;
     cm_date := JStr (sm_date m) |}.

(** [s] is what Python prints for [v]: a [str] prints as it is, and what
    any other value prints as is taken from [py_repr]. *)
Definition prints (py_repr : json -> str) (v : json) (s : str) : Prop :=
  v = JStr s \/ (is_str v = false /\ s = py_repr v).

(** The CleanedMessage [m] of the specification is what the dict [c] of
    the code shows. *)
Definition shows (py_repr : json -> str) (c : cleaned_message)
    (m : spec_message) : Prop :=
  prints py_repr (cm_from c) (sm_from m)
  /\ prints py_repr (cm_date c) (sm_date m)
  /\ cm_text c = sm_text m.

(** ** The completion adapter *)

(** A turn of the chat: [{"role": ..., "content": ...}]. *)
Record turn : Type := Turn { role : str; content : str }.

(** The keyword arguments of [openai.ChatCompletion.create]. *)
Record chat_request : Type := ChatRequest {
  req_model : str;
  req_messages : list turn;
  req_temperature : Z * Z;   (* 0.7, as the decimal 7 / 10 *)
  req_max_tokens : Z;
}.

Definition FALLBACK_REPLY : str :=
  u"⚠️ Ошибка генерации ответа. Попробуйте позже.".

(** [obj.name] on the response object, whose attributes are its keys. *)
Definition py_getattr (obj : json) (name : str) : result json :=
  match obj with
  | JDict d =>
    match dict_get name d with
    | Some v => Ok v
    | None => Raise AttributeError
    end
  | _ => Raise AttributeError
  end.

(** [obj[0]] *)
Definition py_first (obj : json) : result json :=
  match obj with
  | JList (x :: _) => Ok x
  | JList [] => Raise IndexError
  | JStr (c :: _) => Ok (JStr [c])
  | JStr [] => Raise IndexError
  | JDict _ => Raise KeyError
  | _ => Raise TypeError
  end.

(** [obj[key]] for a [str] key. *)
Definition py_getitem (obj : json) (key : str) : result json :=
  match obj with
  | JDict d =>
    match dict_get key d with
    | Some v => Ok v
    | None => Raise KeyError
    end
  | _ => Raise TypeError
  end.

(** [obj.strip()]: the method of a [str]; a response object answers an
    attribute by its key, and what it holds there is not callable. *)
Definition py_strip_method (obj : json) : result str :=
  match obj with
  | JStr s => Ok (py_strip s)
  | JDict d =>
    match dict_get (u"strip") d with
    | Some _ => Raise TypeError
    | None => Raise AttributeError
    end
  | _ => Raise AttributeError
  end.

(** [response.choices[0].message['content'].strip()] *)
Definition response_content (response : json) : result str :=
  choices ← py_getattr response (u"choices");
  choice ← py_first choices;
  message ← py_getattr choice (u"message");
  text ← py_getitem message (u"content");
  py_strip_method text.

Definition completion_request (prompt user_input : str) : chat_request :=
  {| req_model := u"gpt-3.5-turbo";
     req_messages := [ {| role := u"system"; content := prompt |};
                       {| role := u"user"; content := user_input |} ];
     req_temperature := (7, 10);
     req_max_tokens := 500 |}.

(** A line written by [logger.error]: its prefix and the exception. *)
Record log_entry : Type := LogError { log_prefix : str; log_exn : py_exn }.

(** The [try] body of [get_ai_response]; [create] is the external call
    [openai.ChatCompletion.create]. *)
Definition completion (create : chat_request -> result json)
    (prompt user_input : str) : result str :=
  response ← create (completion_request prompt user_input);
  response_content response.

(** [get_ai_response]: the [try] body, then [except Exception]. The second
    component is what [logger.error] wrote. *)
Definition get_ai_response (create : chat_request -> result json)
    (prompt user_input : str) : str * list log_entry :=
  match completion create prompt user_input with
  | Ok text => (text, [])
  | Raise e => (FALLBACK_REPLY, [LogError (u"OpenAI error: ") e])
  end.

(** ** The conversation handlers *)

(** [UPLOAD, GET_NAME, CHAT_MODE = range(3)]; [ConversationHandler.END]
    is the library's [-1]. *)
Definition UPLOAD : Z := 0.
Definition GET_NAME : Z := 1.
Definition CHAT_MODE : Z := 2.
Definition END : Z := -1.

(** [context.user_data]: the keys the handlers set, absent until set. *)
Record user_data : Type := UserData {
  json_data : option json;
  prompt : option str;
  history : option (list turn);
}.

(** What a file written by [save_conversation] holds: the whole dump of a
    sample, or what [open(filename, 'w')] and a [json.dump] that raised
    leave behind, a part of the dump. *)
Inductive archive : Type :=
  | Dumped (data : list cleaned_message)
  | Partial.

(** What a handler can change: the user's data, the replies sent with
    [reply_text] (oldest first), the log, and the files
    [save_conversation] writes under [Chats/]. *)
Record world : Type := World {
  w_user_data : user_data;
  w_sent : list str;
  w_log : list log_entry;
  w_files : gmap str archive;
}.

(** A handler step: it may raise, and keeps the changes made so far. *)
Definition handler (A : Type) : Type := world -> result A * world.

#[global] Instance handler_ret : MRet handler := fun A a w => (Ok a, w).
#[global] Instance handler_bind : MBind handler := fun A B f m w =>
  match m w with
  | (Ok a, w') => f a w'
  | (Raise e, w') => (Raise e, w')
  end.

Definition lift {A} (r : result A) : handler A := fun w => (r, w).

Definition get_user_data : handler user_data := fun w => (Ok (w_user_data w), w).

Definition set_user_data (f : user_data -> user_data) : handler unit :=
  fun w => (Ok tt, {| w_user_data := f (w_user_data w); w_sent := w_sent w;
                      w_log := w_log w; w_files := w_files w |}).

(** [await update.message.reply_text(text)] *)
Definition reply_text (text : str) : handler unit :=
  fun w => (Ok tt, {| w_user_data := w_user_data w; w_sent := w_sent w ++ [text];
                      w_log := w_log w; w_files := w_files w |}).

(** [logger.error(f"{prefix}{e}")] *)
Definition logger_error (entries : list log_entry) : handler unit :=
  fun w => (Ok tt, {| w_user_data := w_user_data w; w_sent := w_sent w;
                      w_log := w_log w ++ entries; w_files := w_files w |}).

Definition write_file (name : str) (content : archive) : handler unit :=
  fun w => (Ok tt, {| w_user_data := w_user_data w; w_sent := w_sent w;
                      w_log := w_log w;
                      w_files := <[name := content]> (w_files w) |}).

(** [try: body except Exception as e: on_error e] *)
Definition try_except {A} (body : handler A) (on_error : py_exn -> handler A)
  : handler A :=
  fun w =>
    match body w with
    | (Raise e, w') => on_error e w'
    | done => done
    end.

(** [str(n)] of an [int]. *)
Definition py_str_int (n : Z) : str := of_string (pretty n).

(** [save_conversation]: the file name carries [uuid.uuid4().hex], here
    [token]. [dump_error] is the exception [open] or [json.dump] raises, if
    any: an [OSError] of the drive, or the [UnicodeEncodeError] of a string
    of the sample that cannot be encoded; which of them, and when, is left
    to the outside world.
    [dump_opened] tells whether [open] had returned by then: [open] creates
    the file, or empties the one that was there, and the [with] block
    closes it on the way out with the part of the dump written so far. *)
Definition save_conversation (token : str) (dump_error : option py_exn)
    (dump_opened : bool) (user_id : Z) (data : list cleaned_message)
  : handler str :=
  let filename := u"Chats/" ++ py_str_int user_id ++ u"_" ++ token ++ u".json" in
  match dump_error with
  | Some e =>
    (if dump_opened then write_file filename Partial else mret tt) ;;
    lift (Raise e)
  | None => write_file filename (Dumped data) ;; mret filename
  end.

Fixpoint str_startswith (s p : str) : bool :=
  match p, s with
  | [], _ => true
  | a :: p', b :: s' => (a =? b)%N && str_startswith s' p'
  | _ :: _, [] => false
  end.

(** [needle in hay] for two [str]. *)
Fixpoint str_contains (needle hay : str) : bool :=
  str_startswith hay needle
  || match hay with
     | [] => false
     | _ :: r => str_contains needle r
     end.

(** [key in obj] for a [str] key. *)
Definition py_contains (key : str) (obj : json) : result bool :=
  match obj with
  | JDict d => Ok (bool_decide (is_Some (dict_get key d)))
  | JList items => Ok (existsb (fun v => py_eq_str v key) items)
  | JStr s => Ok (str_contains key s)
  | _ => Raise TypeError
  end.

Definition is_list (v : json) : bool :=
  match v with JList _ => true | _ => false end.

(** [clean_data] on whatever [user_data['json_data']["messages"]] holds:
    [reversed] raises on a value that is no sequence; the items of a [str]
    or the keys of a dict are no dicts, so nothing is kept from them. *)
Definition clean_data_of (data : json) (interlocutor_name : str)
    (max_messages : Z) : result (list cleaned_message) :=
  match data with
  | JList items => clean_data items interlocutor_name max_messages
  | JStr _ | JDict _ => Ok []
  | _ => Raise TypeError
  end.

(** The update a handler receives. *)
Record update : Type := Update {
  message_text : str;
  from_user_id : Z;
}.

(** What the outside world answers during one handler call. *)
Record externals : Type := Externals {
  received : result json;      (* download of the document, then [json.load] *)
  uuid4_hex : str;
  dump_error : option py_exn;  (* raised by [open] or [json.dump] *)
  dump_opened : bool;          (* [open] had returned when it was raised *)
  create : chat_request -> result json;
}.

Definition NL : str := [10%N].

Definition START_TEXT : str :=
  u"👋 Привет! Я бот для имитации стиля общения." ++ NL ++ NL
  ++ u"📝 Как подготовить данные:" ++ NL
  ++ u"1. Открой Telegram Desktop" ++ NL
  ++ u"2. Выбери нужный диалог" ++ NL
  ++ u"3. Нажми ⋮ → Export chat history" ++ NL
  ++ u"4. Формат: JSON" ++ NL
  ++ u"5. Сними галочки: 'Photos', 'Videos', 'Voice messages'" ++ NL
  ++ u"6. Выбери диапазон: 'Last year' или другой" ++ NL
  ++ u"7. Экспортируй и отправь мне файл" ++ NL ++ NL
  ++ u"После обработки я буду общаться стилем этого человека!".

Definition BAD_FORMAT_TEXT : str :=
  u"❌ Некорректный формат JSON: отсутствует список messages".
Definition FILE_RECEIVED_TEXT : str :=
  u"✅ Файл получен! Теперь введи имя человека, "
  ++ u"стиль которого нужно имитировать (как оно указано в переписке):".
Definition JSON_ERROR_TEXT : str :=
  u"❌ Ошибка чтения JSON. Проверьте целостность файла.".
Definition FILE_ERROR_TEXT : str :=
  u"❌ Ошибка обработки файла. Проверьте формат.".
Definition NO_DATA_TEXT : str :=
  u"❌ Данные не найдены. Начните заново с /start".
Definition PROCESSING_ERROR_TEXT : str :=
  u"❌ Ошибка обработки данных. Попробуйте другой файл.".
Definition EXIT_TEXT : str :=
  u"Выход из режима имитации." ++ NL
  ++ u"Чтобы начать заново, отправь новый JSON-файл или используй /start".
Definition CANCEL_TEXT : str := u"Операция отменена".

Definition not_found_text (interlocutor_name : str) : str :=
  u"❌ Не найдено сообщений от '" ++ interlocutor_name ++ u"'. "
  ++ u"Проверьте имя и повторите попытку.".

Definition analysis_done_text (count : nat) (interlocutor_name : str) : str :=
  u"✅ Анализ переписки завершен!" ++ NL
  ++ u"Найдено " ++ py_str_int (Z.of_nat count) ++ u" сообщений от "
  ++ interlocutor_name ++ NL ++ NL
  ++ u"Теперь я готов к общению в его стиле!" ++ NL ++ NL
  ++ u"Просто напиши мне сообщение, и я отвечу как твой собеседник." ++ NL
  ++ u"Используй /exit для выхода из режима.".

Definition start : handler Z :=
  reply_text START_TEXT ;; mret UPLOAD.

(** The body of the [try] of [handle_json], from the point where [data]
    is bound. *)
Definition handle_json_body (ext : externals) : handler Z :=
  data ← lift (received ext);
  present ← lift (py_contains (u"messages") data);
  invalid ← (if (present : bool)
             then messages ← lift (py_getitem data (u"messages"));
                  mret (negb (is_list messages))
             else mret true);
  if (invalid : bool)
  then reply_text BAD_FORMAT_TEXT ;; mret END
  else set_user_data (fun ud => {| json_data := Some data;
                                   prompt := prompt ud;
                                   history := history ud |}) ;;
       reply_text FILE_RECEIVED_TEXT ;; mret GET_NAME.

(** The [try] statement of [handle_json] without its [finally] clause,
    lines 148-175, and the [return] after it: the body and the two [except]
    clauses, both of which fall through to the final
    [return ConversationHandler.END]. What comes before the [try], and the
    [finally] clause with the temporary file, are added by
    [handle_json_drive] and [handle_json] below. *)
Definition handle_json_try (ext : externals) : handler Z :=
  fun w =>
    match handle_json_body ext w with
    | (Raise JSONDecodeError, w') =>
      (reply_text JSON_ERROR_TEXT ;; mret END) w'
    | (Raise e, w') =>
      (logger_error [LogError (u"JSON processing error: ") e] ;;
       reply_text FILE_ERROR_TEXT ;; mret END) w'
    | done => done
    end.

Section Handlers.
Variable py_repr : json -> str.

Definition handle_interlocutor_name (ext : externals) (upd : update)
  : handler Z :=
  let interlocutor_name := message_text upd in
  ud ← get_user_data;
  match json_data ud with
  | None => reply_text NO_DATA_TEXT ;; mret END
  | Some export =>
    try_except
      (cleaned_data ← lift (messages ← py_getitem export (u"messages");
                            clean_data_of messages interlocutor_name
                                          DEFAULT_MESSAGES_COUNT);
       match cleaned_data with
       | [] => reply_text (not_found_text interlocutor_name) ;; mret GET_NAME
       | _ :: _ =>
         save_conversation (uuid4_hex ext) (dump_error ext) (dump_opened ext)
                           (from_user_id upd) cleaned_data ;;
         let prompt_text := generate_prompt py_repr interlocutor_name cleaned_data in
         set_user_data (fun ud => {| json_data := json_data ud;
                                     prompt := Some prompt_text;
                                     history := Some [] |}) ;;
         reply_text (analysis_done_text (length cleaned_data) interlocutor_name) ;;
         mret CHAT_MODE
       end)
      (fun e =>
         logger_error [LogError (u"Data processing error: ") e] ;;
         reply_text PROCESSING_ERROR_TEXT ;; mret END)
  end.

(** [user_data['history'].append(t)]: [KeyError] without the key. *)
Definition history_append (t : turn) : handler unit :=
  ud ← get_user_data;
  match history ud with
  | None => lift (Raise KeyError)
  | Some h => set_user_data (fun ud => {| json_data := json_data ud;
                                          prompt := prompt ud;
                                          history := Some (h ++ [t]) |})
  end.

Definition chat_mode (ext : externals) (upd : update) : handler Z :=
  let user_input := message_text upd in
  history_append {| role := u"user"; content := user_input |} ;;
  ud ← get_user_data;
  style ← lift (match prompt ud with
                | Some p => Ok p
                | None => Raise KeyError
                end);
  let '(response, logged) := get_ai_response (create ext) style user_input in
  logger_error logged ;;
  history_append {| role := u"assistant"; content := response |} ;;
  reply_text response ;;
  mret CHAT_MODE.

Definition exit_chat : handler Z :=
  reply_text EXIT_TEXT ;; mret END.

Definition cancel : handler Z :=
  reply_text CANCEL_TEXT ;; mret END.

(** *** The [ConversationHandler] of [main] *)

Inductive event : Type :=
  | Command (name : str)          (* /name *)
  | JsonDocument                  (* a document whose name ends in .json *)
  | OtherDocument
  | Text.                         (* text that is no command *)

(** The callbacks [main] registers. *)
Inductive callback : Type :=
  | Start
  | HandleJson
  | HandleInterlocutorName
  | ChatMode
  | ExitChat
  | Cancel.

(** The callback [main] registers for an event: the entry point outside a
    conversation; inside, the handlers of the state in order, then the
    fallbacks. *)
Definition registered (conversation : option Z) (ev : event)
  : option callback :=
  match conversation with
  | None =>
    match ev with
    | Command name => if decide (name = u"start") then Some Start else None
    | _ => None
    end
  | Some state =>
    match ev with
    | JsonDocument =>
      if decide (state = UPLOAD) then Some HandleJson else None
    | Text =>
      if decide (state = GET_NAME) then Some HandleInterlocutorName
      else if decide (state = CHAT_MODE) then Some ChatMode
      else None
    | Command name =>
      if bool_decide (state = CHAT_MODE) && bool_decide (name = u"exit")
      then Some ExitChat
      else if decide (name = u"cancel") then Some Cancel
      else None
    | OtherDocument => None
    end
  end.

(** A callback on an update that carries a message, as far as [world]
    goes: of [handle_json] this is the [try] statement, the temporary file
    and what its removal raises being left to [handle_json] below. *)
Definition call (cb : callback) (ext : externals) (upd : update)
  : handler Z :=
  match cb with
  | Start => start
  | HandleJson => handle_json_try ext
  | HandleInterlocutorName => handle_interlocutor_name ext upd
  | ChatMode => chat_mode ext upd
  | ExitChat => exit_chat
  | Cancel => cancel
  end.

Definition route (conversation : option Z) (ev : event) (ext : externals)
    (upd : update) : option (handler Z) :=
  match registered conversation ev with
  | Some cb => Some (call cb ext upd)
  | None => None
  end.

(** One update in one conversation: the conversation moves to the state
    the callback returns, ends on [END], and stays where it is when no
    handler matches or the callback raises. *)
Definition conversation_step (conversation : option Z) (ev : event)
    (ext : externals) (upd : update) (w : world) : option Z * world :=
  match route conversation ev ext upd with
  | None => (conversation, w)
  | Some h =>
    match h w with
    | (Ok next, w') =>
      (if decide (next = END) then None else Some next, w')
    | (Raise _, w') => (conversation, w')
    end
  end.
End Handlers.

(** [w] after one more reply. *)
Definition reply_only (text : str) (w : world) : world :=
  {| w_user_data := w_user_data w; w_sent := w_sent w ++ [text];
     w_log := w_log w; w_files := w_files w |}.

(** ** [clean_data] on the object store

    Lists and dicts are objects of the store, held by reference; [json.load]
    builds the export there, and [clean_data] reads it and allocates its own
    list and dict objects. This second model keeps what the first leaves
    out: which objects a call writes, and which objects its result shares
    with its argument. *)

Module Store.
Abbreviation loc := positive.

Inductive pyval : Type :=
  | VNone
  | VBool (b : bool)
  | VInt (n : Z)
  | VFloat (f : spec_float)
  | VStr (s : str)
  | VRef (l : loc).

Inductive pyobj : Type :=
  | OList (items : list pyval)
  | ODict (items : list (str * pyval)).

Abbreviation store := (gmap loc pyobj).

(** A new object gets an address not in use. *)
Definition alloc (o : pyobj) (h : store) : loc * store :=
  let l := fresh (dom h) in (l, <[l := o]> h).

Fixpoint vdict_get (key : str) (d : list (str * pyval)) : option pyval :=
  match d with
  | [] => None
  | (k, v) :: r => if decide (k = key) then Some v else vdict_get key r
  end.

Definition veq_str (v : pyval) (s : str) : bool :=
  match v with
  | VStr t => bool_decide (t = s)
  | _ => false
  end.

(** [isinstance(v, dict)], with the items of the dict. *)
Definition as_dict (h : store) (v : pyval) : option (list (str * pyval)) :=
  match v with
  | VRef l => match h !! l with Some (ODict d) => Some d | _ => None end
  | _ => None
  end.

(** [isinstance(v, list)], with the items of the list. *)
Definition as_list (h : store) (v : pyval) : option (list pyval) :=
  match v with
  | VRef l => match h !! l with Some (OList items) => Some items | _ => None end
  | _ => None
  end.

Definition fragment_texts (h : store) (entities : list pyval) : list pyval :=
  omap (fun entity => e ← as_dict h entity; vdict_get (u"text") e) entities.

Fixpoint py_join_empty (items : list pyval) : result str :=
  match items with
  | [] => Ok []
  | VStr s :: r => t ← py_join_empty r; Ok (s ++ t)
  | _ :: _ => Raise TypeError
  end.

Definition extract_text (h : store) (msg : list (str * pyval)) : result str :=
  match vdict_get (u"text") msg with
  | Some (VStr s) => Ok s
  | Some v =>
    match as_list h v with
    | Some entities => py_join_empty (fragment_texts h entities)
    | None => Ok []
    end
  | None => Ok []
  end.

(** One iteration after the [break] test: the items of the dict literal
    to append, if any. The values under ["from"] and ["date"] are the
    very values of [msg]. *)
Definition clean_message (interlocutor_name : str) (h : store) (msg : pyval)
  : result (option (list (str * pyval))) :=
  match as_dict h msg with
  | Some d =>
    match vdict_get (u"from") d with
    | Some sender =>
      if veq_str sender interlocutor_name then
        text ← extract_text h d;
        if str_truthy (py_strip text) then
          Ok (Some [(u"from", sender);
                    (u"text", VStr text);
                    (u"date", default (VStr []) (vdict_get (u"date") d))])
        else Ok None
      else Ok None
    | None => Ok None
    end
  | None => Ok None
  end.

(** The loop: [i] is the position of the reverse iterator over the list
    at [data], [cleaned] the address of [cleaned_messages]. Each step
    reads both lists from the store; both addresses hold lists throughout,
    so the last case never runs. *)
Fixpoint clean_loop (interlocutor_name : str) (max_messages : Z)
    (data cleaned : loc) (i : nat) (h : store) : result unit * store :=
  match i with
  | O => (Ok tt, h)
  | S j =>
    match h !! data, h !! cleaned with
    | Some (OList items), Some (OList acc) =>
      match items !! j with
      | None => (Ok tt, h)
      | Some msg =>
        if Z.of_nat (length acc) >=? max_messages then (Ok tt, h)
        else match clean_message interlocutor_name h msg with
        | Raise e => (Raise e, h)
        | Ok None =>
          clean_loop interlocutor_name max_messages data cleaned j h
        | Ok (Some record) =>
          let '(l, h1) := alloc (ODict record) h in
          clean_loop interlocutor_name max_messages data cleaned j
                     (<[cleaned := OList (acc ++ [VRef l])]> h1)
        end
      end
    | _, _ => (Raise TypeError, h)
    end
  end.

(** [clean_data] called with the object at [data]: a list, as the
    signature has it. The keys a dict hands to [reversed] are no dicts, so
    nothing is kept from them; [data] always refers to an object. *)
Definition clean_data (data : loc) (interlocutor_name : str)
    (max_messages : Z) (h : store) : result loc * store :=
  match h !! data with
  | Some (OList items) =>
    let '(cleaned, h0) := alloc (OList []) h in
    match clean_loop interlocutor_name max_messages data cleaned
                     (length items) h0 with
    | (Ok _, h1) =>
      match h1 !! cleaned with
      | Some (OList acc) =>
        let '(out, h2) := alloc (OList (rev acc)) h1 in (Ok out, h2)
      | _ => (Raise TypeError, h1)
      end
    | (Raise e, h1) => (Raise e, h1)
    end
  | Some (ODict _) =>
    let '(cleaned, h0) := alloc (OList []) h in
    let '(out, h1) := alloc (OList []) h0 in (Ok out, h1)
  | None => (Raise TypeError, h)
  end.

(** The tree a value of the store stands for, read to depth [n]. *)
Fixpoint reify (n : nat) (h : store) (v : pyval) : option json :=
  match v with
  | VNone => Some JNull
  | VBool b => Some (JBool b)
  | VInt z => Some (JInt z)
  | VFloat f => Some (JFloat f)
  | VStr s => Some (JStr s)
  | VRef l =>
    match n with
    | O => None
    | S m =>
      match h !! l with
      | Some (OList items) => JList <$> mapM (reify m h) items
      | Some (ODict items) =>
        JDict <$> mapM (fun kv => pair kv.1 <$> reify m h kv.2) items
      | None => None
      end
    end
  end.

(** A cleaned record as the dict the loop builds. *)
Definition record_json (c : cleaned_message) : json :=
  JDict [(u"from", cm_from c); (u"text", JStr (cm_text c));
         (u"date", cm_date c)].

(** [repr h v j]: read through the store [h], the value [v] is the tree
    [j]. *)
Definition repr (h : store) (v : pyval) (j : json) : Prop :=
  exists n, reify n h v = Some j.

Definition repr_item (h : store) (kv : str * pyval) (kj : str * json) : Prop :=
  kj.1 = kv.1 /\ repr h kv.2 kj.2.

(** [v] refers to a dict allocated since [h_in]. *)
Definition new_record (h_in h : store) (v : pyval) : Prop :=
  exists l d, v = VRef l /\ h_in !! l = None /\ h !! l = Some (ODict d).

(** What the loop maintains: the objects of [h_in] are as they were, and
    the accumulator, itself allocated since [h_in], lists distinct new
    records. *)
Definition loop_inv (h_in : store) (cleaned : loc) (h : store) : Prop :=
  h_in ⊆ h /\ h_in !! cleaned = None
  /\ exists acc, h !! cleaned = Some (OList acc)
                /\ Forall (new_record h_in h) acc /\ NoDup acc.
End Store.

(** How the outcome of one iteration on the store matches its outcome on
    the tree. *)
Definition sim_kept (h0 : Store.store)
    (r : result (option (list (str * Store.pyval))))
    (p : result (option cleaned_message)) : Prop :=
  match r, p with
  | Ok (Some record), Ok (Some c) =>
    Forall2 (Store.repr_item h0) record
            [(u"from", cm_from c); (u"text", JStr (cm_text c));
             (u"date", cm_date c)]
  | Ok None, Ok None => True
  | Raise e, Raise e' => e = e'
  | _, _ => False
  end.

(** ** Sample inputs *)

Definition message (sender text : str) : json :=
  JDict [(u"from", JStr sender); (u"text", JStr text)].

Definition alice_hi : json := message (u"Alice") (u"hi").
Definition bob_yo : json := message (u"Bob") (u"yo").
Definition alice_blank : json := message (u"Alice") (u"  ").
Definition alice_padded : json := message (u"Alice") (u" hi ").

(** A message of Alice with a fragment whose text is the number 1. *)
Definition alice_ill_typed : json :=
  JDict [(u"from", JStr (u"Alice"));
         (u"text", JList [JDict [(u"text", JInt 1)]])].



Definition no_repr (v : json) : str := [].

Definition export_abc : json :=
  JDict [(u"name", JStr (u"chat"));
         (u"messages", JList [alice_hi; bob_yo; alice_blank])].

Definition quota_exceeded : externals :=
  {| received := Ok export_abc;
     uuid4_hex := u"0f";
     dump_error := None;
     dump_opened := true;
     create := fun _ => Raise (OpenAIError (u"quota")) |}.

Definition world_of (ud : user_data) : world :=
  {| w_user_data := ud; w_sent := []; w_log := []; w_files := ∅ |}.

Definition chatting : world :=
  world_of {| json_data := Some export_abc; prompt := Some (u"p");
              history := Some [] |}.

Definition named : world :=
  world_of {| json_data := Some export_abc; prompt := None; history := None |}.

Definition fresh_session : world :=
  world_of {| json_data := None; prompt := None; history := None |}.

(** A store holding the export [alice " hi "], [bob "yo"] as the list at
    address 3. *)
Definition sample_store : Store.store :=
  {[ 1%positive := Store.ODict [(u"from", Store.VStr (u"Alice"));
                                (u"text", Store.VStr (u" hi "))];
     2%positive := Store.ODict [(u"from", Store.VStr (u"Bob"));
                                (u"text", Store.VStr (u"yo"))];
     3%positive := Store.OList [Store.VRef 1; Store.VRef 2] ]}.

(** ** The temporary file of [handle_json] *)

(** What the outside world answers while [handle_json] runs, step by
    step. *)
Record upload : Type := Upload {
  get_file_error : option py_exn;   (* [context.bot.get_file] *)
  download_error : option py_exn;   (* [file.download_to_drive] *)
  download_partial : bool;          (* a failed download left the file behind *)
  loaded : result json;             (* [open], then [json.load] *)
  remove_error : option py_exn;     (* [os.remove] *)
}.

(** [CHATS_DIR / f"temp_{user_id}.json"] *)
Definition temp_path (user_id : Z) : str :=
  u"Chats/temp_" ++ py_str_int user_id ++ u".json".

(** What the [try] body has in [data], or the exception that kept it from
    getting there. *)
Definition received_of (up : upload) : result json :=
  match get_file_error up, download_error up with
  | Some e, _ => Raise e
  | None, Some e => Raise e
  | None, None => loaded up
  end.

Definition with_received (ext : externals) (r : result json) : externals :=
  {| received := r; uuid4_hex := uuid4_hex ext;
     dump_error := dump_error ext; dump_opened := dump_opened ext;
     create := create ext |}.

(** [handle_json] on an update that carries a message, with the files of
    the drive: [json_path] is bound once [get_file] has returned, the
    download puts the file there, and [finally] removes it if it is bound
    and exists. An exception of [os.remove] leaves [finally] in place of
    the value returned. *)
Definition handle_json_drive (up : upload) (ext : externals) (upd : update)
    (w : world) (drive : gset str) : (result Z * world) * gset str :=
  let json_path := temp_path (from_user_id upd) in
  let '(bound, drive1) :=
    match get_file_error up, download_error up with
    | Some _, _ => (false, drive)
    | None, Some _ =>
      (true, if download_partial up then {[json_path]} ∪ drive else drive)
    | None, None => (true, {[json_path]} ∪ drive)
    end in
  let outcome := handle_json_try (with_received ext (received_of up)) w in
  if bound && bool_decide (json_path ∈ drive1) then
    match remove_error up with
    | None => (outcome, drive1 ∖ {[json_path]})
    | Some e => ((Raise e, outcome.2), drive1)
    end
  else (outcome, drive1).

(** ** The whole of [handle_json] *)

(** [update.message] is [None] when the update carries an edited message,
    which the filters of [main] let through: they look at
    [update.effective_message]. Line 145 reads [update.message.from_user]
    before the [try], so the [AttributeError] is raised before anything has
    happened. *)
Definition handle_json (up : upload) (ext : externals) (msg : option update)
    (w : world) (drive : gset str) : (result Z * world) * gset str :=
  match msg with
  | None => ((Raise AttributeError, w), drive)
  | Some upd => handle_json_drive up ext upd w drive
  end.

(** [finally] calls [os.remove]: [get_file] has returned, so [json_path]
    is bound, and the file is on the drive, put there by the download or
    left by an earlier call. *)
Definition removal_attempted (up : upload) (upd : update)
    (drive : gset str) : Prop :=
  get_file_error up = None
  /\ (download_error up = None \/ download_partial up = true
      \/ temp_path (from_user_id upd) ∈ drive).

(** ** The conversations of a user *)

(** An update as the application hands it to the [ConversationHandler],
    with what the outside world answers while its callback runs. *)
Record delivery : Type := Delivery {
  d_chat : Z;                  (* [update.effective_chat.id] *)
  d_event : event;             (* what the filters find in the message *)
  d_message : option update;   (* [update.message], [None] if edited *)
  d_ext : externals;
  d_upload : upload;
}.

(** What the process holds for one user. [main] builds the
    [ConversationHandler] with the defaults of the library, which keep one
    state per chat and user, whereas [context.user_data] is the user's in
    every chat: the conversations a user has in several chats share it.
    The application is built without persistence, so the user's data is
    empty when the process starts. *)
Record bot : Type := Bot {
  conversations : gmap Z Z;    (* the state of the conversation, by chat *)
  b_world : world;
  b_drive : gset str;          (* the temporary files on the drive *)
}.

Section Bot.
Variable py_repr : json -> str.

(** The callback on any update. Each callback reads an attribute of
    [update.message] before it does anything else ([start], [exit_chat] and
    [cancel] for [reply_text], the others on their first line), so on an
    edited message it raises [AttributeError] and nothing has changed. *)
Definition run_callback (cb : callback) (d : delivery) (w : world)
    (drive : gset str) : (result Z * world) * gset str :=
  match cb with
  | HandleJson => handle_json (d_upload d) (d_ext d) (d_message d) w drive
  | _ =>
    match d_message d with
    | None => ((Raise AttributeError, w), drive)
    | Some upd => (call py_repr cb (d_ext d) upd w, drive)
    end
  end.

(** One update: the callback registered for the state of the chat it
    comes from is run, and that conversation moves to the state returned,
    ends on [END], and stays where it is when the callback raises (the
    application logs the exception). Updates are taken one at a time. *)
Definition bot_step (d : delivery) (b : bot) : bot :=
  match registered (conversations b !! d_chat d) (d_event d) with
  | None => b
  | Some cb =>
    let out := run_callback cb d (b_world b) (b_drive b) in
    {| conversations :=
         match out.1.1 with
         | Ok next =>
           if decide (next = END) then delete (d_chat d) (conversations b)
           else <[d_chat d := next]> (conversations b)
         | Raise _ => conversations b
         end;
       b_world := out.1.2;
       b_drive := out.2 |}
  end.

Definition run (ds : list delivery) (b : bot) : bot :=
  foldl (fun b d => bot_step d b) b ds.

(** What the updates of a user can lead to, from the start of the process
    with whatever files are on the drive. *)
Inductive reachable : bot -> Prop :=
  | reachable_start files drive :
      reachable {| conversations := ∅;
                   b_world := {| w_user_data := UserData None None None;
                                 w_sent := []; w_log := [];
                                 w_files := files |};
                   b_drive := drive |}
  | reachable_step b d : reachable b -> reachable (bot_step d b).
End Bot.

(** ** What the conversations keep *)

(** A question and its answer, as [chat_mode] appends them. *)
Definition exchange (qa : str * str) : list turn :=
  [Turn (u"user") qa.1; Turn (u"assistant") qa.2].

(** The stored export is a dict whose ["messages"] is a list. *)
Definition export_valid (w : world) : Prop :=
  exists d msgs,
    json_data (w_user_data w) = Some (JDict d)
    /\ dict_get (u"messages") d = Some (JList msgs).

Section Session.
Variable py_repr : json -> str.

(** The stored prompt was built from a non-empty sample of a list of
    messages, and the history is a run of exchanges. *)
Definition chat_ready (w : world) : Prop :=
  exists msgs name cleaned exchanges,
    clean_data msgs name DEFAULT_MESSAGES_COUNT = Ok cleaned
    /\ cleaned <> []
    /\ prompt (w_user_data w) = Some (generate_prompt py_repr name cleaned)
    /\ history (w_user_data w) = Some (exchanges ≫= exchange).

(** What holds of the user's data whatever state the chats are in. *)
Definition data_inv (w : world) : Prop :=
  (json_data (w_user_data w) = None \/ export_valid w)
  /\ ((prompt (w_user_data w) = None /\ history (w_user_data w) = None)
      \/ chat_ready w).

(** What holds of the user's data while a chat is in [state]. *)
Definition state_inv (state : Z) (w : world) : Prop :=
  state = UPLOAD
  \/ (state = GET_NAME /\ export_valid w)
  \/ (state = CHAT_MODE /\ export_valid w /\ chat_ready w).

Definition bot_inv (b : bot) : Prop :=
  data_inv (b_world b)
  /\ forall chat state,
       conversations b !! chat = Some state -> state_inv state (b_world b).

(** [w'] holds a valid export if [w] does, and a prompt built from a
    sample if [w] does; what it holds anew is a valid export and such a
    prompt. *)
Definition advances (w w' : world) : Prop :=
  (export_valid w -> export_valid w')
  /\ (chat_ready w -> chat_ready w')
  /\ (json_data (w_user_data w') = json_data (w_user_data w)
      \/ export_valid w')
  /\ ((prompt (w_user_data w') = prompt (w_user_data w)
       /\ history (w_user_data w') = history (w_user_data w))
      \/ chat_ready w').
End Session.

(** [w'] holds what [w] held: the replies and the log of [w] with more
    after them, the files of [w] by name, and every key of the user's
    data that [w] has. *)
Definition keeps (w w' : world) : Prop :=
  w_sent w `prefix_of` w_sent w'
  /\ w_log w `prefix_of` w_log w'
  /\ dom (w_files w) ⊆ dom (w_files w')
  /\ (is_Some (json_data (w_user_data w)) -> is_Some (json_data (w_user_data w')))
  /\ (is_Some (prompt (w_user_data w)) -> is_Some (prompt (w_user_data w')))
  /\ (is_Some (history (w_user_data w)) -> is_Some (history (w_user_data w'))).

(** The file name [save_conversation] writes to. *)
Definition archive_name (user_id : Z) (token : str) : str :=
  u"Chats/" ++ py_str_int user_id ++ u"_" ++ token ++ u".json".

(** A message of Alice whose date is [null]. *)
Definition alice_dated : json :=
  JDict [(u"from", JStr (u"Alice")); (u"text", JStr (u"hi"));
         (u"date", JNull)].

(** A completion service that answers [" hi there "]. *)
Definition polite : externals :=
  {| received := Ok export_abc;
     uuid4_hex := u"0f";
     dump_error := None;
     dump_opened := true;
     create := fun _ =>
       Ok (JDict [(u"choices",
                   JList [JDict [(u"message",
                                  JDict [(u"content", JStr (u" hi there "))])]])]) |}.

(** A user's data with a history but no prompt. *)
Definition half_ready : world :=
  world_of {| json_data := None; prompt := None; history := Some [] |}.

(** An export whose last message of Alice is ill-typed, and a session that
    stored it. *)
Definition ill_typed_export : json :=
  JDict [(u"messages", JList [alice_hi; alice_ill_typed])].

Definition ill_typed_session : world :=
  world_of {| json_data := Some ill_typed_export; prompt := None;
              history := None |}.

(** A drive that refuses the dump. *)
Definition disk_full : externals :=
  {| received := Ok export_abc;
     uuid4_hex := u"0f";
     dump_error := Some OSError;
     dump_opened := true;
     create := fun _ => Raise (OpenAIError (u"quota")) |}.

(** An upload of the document [doc] that goes through. *)
Definition uploads (doc : json) : upload :=
  {| get_file_error := None; download_error := None;
     download_partial := false; loaded := Ok doc; remove_error := None |}.

(** User 7 sends [ev], with the text [text] or the document [doc], to
    the chat [chat]; and the same as an edit of an earlier message. *)
Definition sends (chat : Z) (ev : event) (text : str) (doc : json)
  : delivery :=
  {| d_chat := chat; d_event := ev; d_message := Some (Update text 7);
     d_ext := polite; d_upload := uploads doc |}.

Definition edits (chat : Z) (ev : event) : delivery :=
  {| d_chat := chat; d_event := ev; d_message := None;
     d_ext := polite; d_upload := uploads export_abc |}.

Definition export_bob : json := JDict [(u"messages", JList [bob_yo])].

(** The process at its start, with an empty drive. *)
Definition boot : bot :=
  {| conversations := ∅; b_world := fresh_session; b_drive := ∅ |}.

(** The user takes chat 1 to the chat state on [export_abc], then starts
    a conversation in chat 2 and uploads [export_bob] there. *)
Definition two_chats : list delivery :=
  [ sends 1 (Command (u"start")) [] export_abc;
    sends 1 JsonDocument [] export_abc;
    sends 1 Text (u"Alice") export_abc;
    sends 2 (Command (u"start")) [] export_bob;
    sends 2 JsonDocument [] export_bob ].

(** A bot whose one conversation, in chat 1, is in the chat state. *)
Definition in_chat : bot :=
  {| conversations := {[ 1 := CHAT_MODE ]}; b_world := chatting;
     b_drive := ∅ |}.

(** An upload of [export_abc] whose temporary file cannot be removed. *)
Definition jammed : upload :=
  {| get_file_error := None; download_error := None;
     download_partial := false; loaded := Ok export_abc;
     remove_error := Some OSError |}.

(** A download that breaks off and leaves a partial file, and a bot that
    cannot reach the file server. *)
Definition broken_download : upload :=
  {| get_file_error := None; download_error := Some OSError;
     download_partial := true; loaded := Raise OSError;
     remove_error := None |}.

Definition no_connection : upload :=
  {| get_file_error := Some OSError; download_error := None;
     download_partial := false; loaded := Raise OSError;
     remove_error := None |}.

(** [v] refers to a record dict whose values under ["from"] and ["date"]
    are the very values a message dict among [items] holds there (the empty
    [str] standing in for a missing date). *)
Definition shares_fields (items : list Store.pyval) (h : Store.store)
    (v : Store.pyval) : Prop :=
  exists l sender text date source message,
    v = Store.VRef l
    /\ h !! l = Some (Store.ODict [(u"from", sender);
                                   (u"text", Store.VStr text);
                                   (u"date", date)])
    /\ Store.VRef source ∈ items
    /\ h !! source = Some (Store.ODict message)
    /\ Store.vdict_get (u"from") message = Some sender
    /\ date = default (Store.VStr []) (Store.vdict_get (u"date") message).

(** A store whose one message carries its date as a list object, at
    address 1. *)
Definition dated_store : Store.store :=
  {[ 1%positive := Store.OList [Store.VInt 2024];
     2%positive := Store.ODict [(u"from", Store.VStr (u"Alice"));
                                (u"text", Store.VStr (u"hi"));
                                (u"date", Store.VRef 1)];
     3%positive := Store.OList [Store.VRef 2] ]}.


(** * Properties *)

(** ** [clean_data] *)

Section CleanData.
Variables (name : str) (max : Z).
Implicit Types (msgs data : list json) (acc out : list cleaned_message).

Lemma keep_cleans msg c : keep name msg = Some c ↔ cleans name msg c.
Proof.
  unfold keep, cleans. destruct (clean_message name msg) as [[?|]|]; naive_solver.
Qed.

Lemma qualifies_keep msg : qualifies name msg = true ↔ is_Some (keep name msg).
Proof.
  unfold qualifies, keep, clean_message, is_Some.
  destruct msg as [| | | | |?|d]; try naive_solver.
  destruct (dict_get _ d) as [sender|]; [|naive_solver].
  destruct (extract_text d) as [text|e], (py_eq_str sender name); simpl;
    try naive_solver.
  destruct (str_truthy (py_strip text)); naive_solver.
Qed.

Lemma clean_loop_ok msgs : ∀ acc out,
  clean_loop name max msgs acc = Ok out →
  out = acc ++ take (Z.to_nat (max - Z.of_nat (length acc))) (omap (keep name) msgs).
Proof.
  induction msgs as [|msg rest IH]; intros acc out; simpl.
  - intros [= <-]. by rewrite take_nil, app_nil_r.
  - destruct (Z.geb_spec (Z.of_nat (length acc)) max) as [Hfull|Hroom].
    + intros [= <-]. replace (Z.to_nat _) with 0%nat by lia.
      by rewrite take_0, app_nil_r.
    + unfold keep at 1. destruct (clean_message name msg) as [[c|]|e]; simpl; [| |done].
      * intros Hrec. apply IH in Hrec as ->.
        rewrite length_app, <- app_assoc. simpl.
        replace (Z.to_nat (max - Z.of_nat (length acc)))
          with (S (Z.to_nat (max - Z.of_nat (length acc + 1)))) by lia.
        done.
      * apply IH.
Qed.

(** The loop returns when no message it reads raises; [pre] is the part
    of the reversed export it reads, up to the end or up to the break. *)
Lemma clean_loop_total pre : ∀ post acc,
  Forall (λ msg, raises (clean_message name msg) = false) pre →
  post = []
  ∨ max - Z.of_nat (length acc) ≤ Z.of_nat (length (omap (keep name) pre)) →
  clean_loop name max (pre ++ post) acc
  = Ok (acc ++ take (Z.to_nat (max - Z.of_nat (length acc))) (omap (keep name) pre)).
Proof.
  induction pre as [|msg pre IH]; intros post acc Hpre Hlen; simpl in *.
  - rewrite take_nil, app_nil_r. destruct Hlen as [->|Hlen]; [done|].
    change (Z.of_nat 0) with 0 in Hlen.
    destruct post as [|m post]; simpl; [done|].
    destruct (Z.geb_spec (Z.of_nat (length acc)) max); [done|lia].
  - apply Forall_cons in Hpre as [Hmsg Hpre].
    destruct (Z.geb_spec (Z.of_nat (length acc)) max) as [Hfull|Hroom].
    { replace (Z.to_nat _) with 0%nat by lia. by rewrite take_0, app_nil_r. }
    unfold keep at 1 in Hlen. unfold keep at 1.
    destruct (clean_message name msg) as [[c|]|e]; simpl in *; [| |done].
    + change (list_omap json cleaned_message)
        with (@omap list _ json cleaned_message) in *.
      rewrite IH; [|done|].
      * rewrite length_app, <- app_assoc. simpl.
        replace (Z.to_nat (max - Z.of_nat (length acc)))
          with (S (Z.to_nat (max - Z.of_nat (length acc + 1)))) by lia.
        done.
      * destruct Hlen as [->|Hlen]; [by left|right].
        rewrite length_app. simpl. lia.
    + by apply IH.
Qed.

Lemma omap_keep_rev msgs :
  omap (keep name) (rev msgs) = rev (omap (keep name) msgs).
Proof.
  induction msgs as [|msg msgs IH]; simpl; [done|].
  rewrite omap_app, IH. simpl.
  destruct (keep name msg); simpl; [done|by rewrite app_nil_r].
Qed.

Lemma rev_take_rev {A} (n : nat) (l : list A) : rev (take n (rev l)) = last_n n l.
Proof. unfold last_n. by rewrite firstn_rev, rev_involutive. Qed.

(** Whatever [clean_data] returns is the last [max] kept records. *)
Lemma clean_data_ok data out :
  clean_data data name max = Ok out →
  out = last_n (Z.to_nat max) (omap (keep name) data).
Proof.
  unfold clean_data.
  destruct (clean_loop name max (rev data) []) as [cleaned|e] eqn:Hloop; [|done].
  simpl. intros [= <-]. apply clean_loop_ok in Hloop as ->. simpl.
  rewrite Z.sub_0_r, omap_keep_rev. apply rev_take_rev.
Qed.


(** It returns on every export none of whose messages raises. *)
Lemma clean_data_total data :
  Forall (λ msg, raises (clean_message name msg) = false) data →
  clean_data data name max
  = Ok (last_n (Z.to_nat max) (omap (keep name) data)).
Proof.
  intros Hdata. unfold clean_data.
  rewrite <- (app_nil_r (rev data)), clean_loop_total;
    [|by apply Forall_rev|by left].
  simpl. by rewrite Z.sub_0_r, omap_keep_rev, rev_take_rev.
Qed.

Lemma kept_of_qualifying data :
  Forall2 (cleans name) (filter (λ msg, qualifies name msg) data)
          (omap (keep name) data).
Proof.
  induction data as [|msg data IH]; simpl; [constructor|].
  rewrite filter_cons. destruct (decide (qualifies name msg)) as [Hq|Hq].
  - apply Is_true_true, qualifies_keep in Hq as [c Hc]. rewrite Hc.
    constructor; [by apply keep_cleans|done].
  - destruct (keep name msg) as [c|] eqn:Hc; [|done].
    exfalso. apply Hq, Is_true_true, qualifies_keep. eauto.
Qed.

(** An export without a qualifying message, none of whose messages raises,
    gives the empty sample, not an error. *)
Lemma clean_data_no_match data :
  Forall (λ msg, raises (clean_message name msg) = false) data →
  filter (λ msg, qualifies name msg) data = [] →
  clean_data data name max = Ok [].
Proof.
  intros Hdata Hnone. rewrite clean_data_total by done.
  pose proof (kept_of_qualifying data) as Hkept. rewrite Hnone in Hkept.
  apply Forall2_nil_inv_l in Hkept as ->. unfold last_n. by rewrite drop_nil.
Qed.

Lemma last_n_sublist {A} n (l : list A) : last_n n l `sublist_of` l.
Proof. apply sublist_drop. Qed.

Lemma last_n_Forall2 {A B} (P : A → B → Prop) n l k :
  Forall2 P l k → Forall2 P (last_n n l) (last_n n k).
Proof.
  intros H. unfold last_n. rewrite (Forall2_length _ _ _ H).
  by apply Forall2_drop.
Qed.

Lemma cleans_from msg c : cleans name msg c → cm_from c = JStr name.
Proof.
  unfold cleans, clean_message. intros H.
  destruct msg as [| | | | |?|d]; try done.
  destruct (dict_get _ d) as [sender|]; [|done].
  destruct (py_eq_str sender name) eqn:Heq; [|done].
  destruct (extract_text d) as [text|]; [|done]. simpl in H.
  destruct (str_truthy _); [|done]. injection H as <-. simpl.
  destruct sender; try done. simpl in Heq.
  by apply bool_decide_eq_true in Heq as ->.
Qed.
End CleanData.

Lemma py_join_empty_raises items :
  raises (py_join_empty items) = true ↔ Exists (λ v, is_str v = false) items.
Proof.
  induction items as [|item items IH]; simpl.
  - split; [done|by intros ?%Exists_nil].
  - rewrite Exists_cons.
    destruct item; simpl; try (split; [by left|done]).
    destruct (py_join_empty items); simpl in *; naive_solver.
Qed.

(** The one way an iteration raises: the message is a dict of the sender
    whose ["text"] is a list holding a dict whose ["text"] is no [str]. *)
Lemma clean_message_raises name msg :
  raises (clean_message name msg) = true ↔
  ∃ d entities,
    msg = JDict d ∧ dict_get (u"from") d = Some (JStr name)
    ∧ dict_get (u"text") d = Some (JList entities)
    ∧ Exists (λ v, is_str v = false) (fragment_texts entities).
Proof.
  split.
  - unfold clean_message. destruct msg as [| | | | | |d]; try done.
    destruct (dict_get (u"from") d) as [sender|] eqn:Hfrom; [|done].
    destruct (py_eq_str sender name) eqn:Heq; [|done].
    destruct sender as [| | | |s| |]; try done.
    apply bool_decide_eq_true in Heq as ->.
    unfold extract_text.
    destruct (dict_get (u"text") d) as [[| | | |t|entities|]|] eqn:Htext;
      simpl; try done.
    + by destruct (str_truthy (py_strip t)).
    + intros Hraise. exists d, entities. repeat split; try done.
      apply py_join_empty_raises.
      destruct (py_join_empty (fragment_texts entities)) as [text|]; [|done].
      simpl in Hraise. by destruct (str_truthy (py_strip text)).
  - intros (d & entities & -> & Hfrom & Htext & Hbad%py_join_empty_raises).
    unfold clean_message, extract_text. rewrite Hfrom, Htext. simpl.
    rewrite bool_decide_eq_true_2 by done.
    by destruct (py_join_empty (fragment_texts entities)).
Qed.

Lemma Forall2_right {A B} (P : A → B → Prop) (Q : B → Prop) l k :
  Forall2 P l k → (∀ x y, P x y → Q y) → Forall Q k.
Proof. induction 1; intros HPQ; constructor; eauto. Qed.

(** The records returned are the cleaned forms of the last qualifying
    entries of the input, in the order of the input. *)
Lemma clean_data_selection data name max out :
  clean_data data name max = Ok out →
  Forall2 (cleans name)
          (last_n (Z.to_nat max) (filter (λ msg, qualifies name msg) data)) out.
Proof.
  intros ->%clean_data_ok. apply last_n_Forall2, kept_of_qualifying.
Qed.

Lemma length_last_n {A} n (l : list A) : (length (last_n n l) ≤ n)%nat.
Proof. unfold last_n. rewrite length_drop. lia. Qed.

(** C1, as amended: for a cap that is not negative the sample [clean_data]
    returns has at most [max_messages] records (for a cap of zero or less it
    is empty), and the ["from"] of every record is the [str] equal to the
    requested name. *)
Theorem clean_data_bounded_from_sender data name max out :
  clean_data data name max = Ok out →
  (0 ≤ max → Z.of_nat (length out) ≤ max)
  ∧ (max ≤ 0 → out = [])
  ∧ Forall (λ c, cm_from c = JStr name) out.
Proof.
  intros Hout. split; [|split].
  - apply clean_data_ok in Hout as ->. intros Hmax.
    pose proof (length_last_n (Z.to_nat max) (omap (keep name) data)). lia.
  - apply clean_data_ok in Hout as ->. intros Hmax.
    apply length_zero_iff_nil.
    pose proof (length_last_n (Z.to_nat max) (omap (keep name) data)). lia.
  - eapply Forall2_right; [by apply clean_data_selection|].
    intros msg c. apply cleans_from.
Qed.

Lemma clean_data_bounded_from_sender_witness :
  clean_data [alice_hi; bob_yo; alice_hi] (u"Alice") 1
  = Ok [CleanedMessage (JStr (u"Alice")) (u"hi") (JStr [])]
  ∧ (0 ≤ 1 → Z.of_nat (length [CleanedMessage (JStr (u"Alice")) (u"hi") (JStr [])]) ≤ 1)
  ∧ (1 ≤ 0 → [CleanedMessage (JStr (u"Alice")) (u"hi") (JStr [])] = [])
  ∧ Forall (λ c, cm_from c = JStr (u"Alice"))
           [CleanedMessage (JStr (u"Alice")) (u"hi") (JStr [])].
Proof.
  assert (H : clean_data [alice_hi; bob_yo; alice_hi] (u"Alice") 1
              = Ok [CleanedMessage (JStr (u"Alice")) (u"hi") (JStr [])])
    by (vm_compute; reflexivity).
  exact (conj H (clean_data_bounded_from_sender _ _ _ _ H)).
Defined.

(** C1 as stated fails for a negative cap: the loop stops at once and the
    empty sample is longer than [-1]. *)
Lemma clean_data_negative_cap :
  clean_data [alice_hi] (u"Alice") (-1) = Ok []
  ∧ ¬ (Z.of_nat (length (@nil cleaned_message)) ≤ -1).
Proof. split; [vm_compute; reflexivity | simpl; lia]. Qed.




Lemma last_qualifying_sublist name n (data : list json) :
  last_n n (filter (λ msg, qualifies name msg) data) `sublist_of` data.
Proof. etrans; [apply last_n_sublist|apply sublist_filter]. Qed.

(** C3: the records [clean_data] returns are the cleaned forms of entries
    of the input taken in the order in which they stand in the input. *)
Theorem clean_data_keeps_order data name max out :
  clean_data data name max = Ok out →
  ∃ kept, kept `sublist_of` data ∧ Forall2 (cleans name) kept out.
Proof.
  intros Hout. eexists. split; [apply last_qualifying_sublist|].
  by apply clean_data_selection.
Qed.

Lemma clean_data_keeps_order_witness :
  clean_data [alice_hi; bob_yo; alice_padded] (u"Alice") 750
  = Ok [CleanedMessage (JStr (u"Alice")) (u"hi") (JStr []);
        CleanedMessage (JStr (u"Alice")) (u" hi ") (JStr [])]
  ∧ ∃ kept, kept `sublist_of` [alice_hi; bob_yo; alice_padded]
      ∧ Forall2 (cleans (u"Alice")) kept
          [CleanedMessage (JStr (u"Alice")) (u"hi") (JStr []);
           CleanedMessage (JStr (u"Alice")) (u" hi ") (JStr [])].
Proof.
  assert (H : clean_data [alice_hi; bob_yo; alice_padded] (u"Alice") 750
              = Ok [CleanedMessage (JStr (u"Alice")) (u"hi") (JStr []);
                    CleanedMessage (JStr (u"Alice")) (u" hi ") (JStr [])])
    by (vm_compute; reflexivity).
  exact (conj H (clean_data_keeps_order _ _ _ _ H)).
Defined.

Lemma py_strip_nonempty (s : str) : py_strip s ≠ [] → s ≠ [].
Proof. intros H ->. by apply H. Qed.

Lemma py_lstrip_nonspace (s : str) :
  py_lstrip s ≠ [] → ∃ c, c ∈ py_lstrip s ∧ py_isspace c = false.
Proof.
  induction s as [|c s IH]; simpl; [done|].
  destruct (py_isspace c) eqn:Hc; [done|].
  intros _. exists c. split; [left|done].
Qed.

Lemma py_lstrip_subseteq (s : str) c : c ∈ py_lstrip s → c ∈ s.
Proof.
  induction s as [|d s IH]; simpl; [done|].
  destruct (py_isspace d); [|done]. intros H. right. by apply IH.
Qed.

(** A text that survives the blank test holds a character that is no
    whitespace. *)
Lemma py_strip_nonspace (s : str) :
  py_strip s ≠ [] → ∃ c, c ∈ s ∧ py_isspace c = false.
Proof.
  unfold py_strip, py_rstrip. intros H.
  destruct (py_lstrip_nonspace (rev (py_lstrip s))) as (c & Hin & Hc).
  { intros Hnil. apply H. by rewrite Hnil. }
  exists c. split; [|done].
  apply py_lstrip_subseteq in Hin. apply list_elem_of_In, in_rev in Hin.
  by apply py_lstrip_subseteq, list_elem_of_In.
Qed.

Lemma cleans_text name msg c :
  cleans name msg c →
  ∃ d, msg = JDict d ∧ extract_text d = Ok (cm_text c)
       ∧ py_strip (cm_text c) ≠ [].
Proof.
  unfold cleans, clean_message. intros H.
  destruct msg as [| | | | |?|d]; try done.
  destruct (dict_get _ d) as [sender|]; [|done].
  destruct (py_eq_str sender name); [|done].
  destruct (extract_text d) as [text|] eqn:Hext; [|done]. simpl in H.
  destruct (str_truthy (py_strip text)) eqn:Htext; [|done].
  injection H as <-. simpl. exists d. split; [done|]. split; [done|].
  intros Hnil. by rewrite Hnil in Htext.
Qed.

(** C4, as amended: the ["text"] of every record [clean_data] returns is
    the text extracted from its message as it stands, not trimmed; it is
    not empty and not blank, that is, what [strip] leaves of it is not
    empty and it holds a character that is no whitespace. *)
Theorem clean_data_text_not_blank data name max out :
  clean_data data name max = Ok out →
  Forall (λ c, cm_text c ≠ [] ∧ py_strip (cm_text c) ≠ []
               ∧ ∃ ch, ch ∈ cm_text c ∧ py_isspace ch = false) out
  ∧ ∃ kept, kept `sublist_of` data
      ∧ Forall2 (λ msg c, ∃ d, msg = JDict d ∧ extract_text d = Ok (cm_text c))
                kept out.
Proof.
  intros Hout. split.
  - eapply Forall2_right; [by apply clean_data_selection|].
    intros msg c (d & _ & _ & Htext)%cleans_text.
    auto using py_strip_nonempty, py_strip_nonspace.
  - eexists. split; [apply last_qualifying_sublist|].
    eapply Forall2_impl; [by apply clean_data_selection|].
    intros msg c (d & ? & ? & _)%cleans_text. eauto.
Qed.

Lemma clean_data_text_not_blank_witness :
  clean_data [alice_hi; bob_yo; alice_blank] (u"Alice") 750
  = Ok [CleanedMessage (JStr (u"Alice")) (u"hi") (JStr [])]
  ∧ (Forall (λ c, cm_text c ≠ [] ∧ py_strip (cm_text c) ≠ []
                  ∧ ∃ ch, ch ∈ cm_text c ∧ py_isspace ch = false)
            [CleanedMessage (JStr (u"Alice")) (u"hi") (JStr [])]
     ∧ ∃ kept, kept `sublist_of` [alice_hi; bob_yo; alice_blank]
         ∧ Forall2 (λ msg c, ∃ d, msg = JDict d
                                  ∧ extract_text d = Ok (cm_text c))
                   kept [CleanedMessage (JStr (u"Alice")) (u"hi") (JStr [])]).
Proof.
  assert (H : clean_data [alice_hi; bob_yo; alice_blank] (u"Alice") 750
              = Ok [CleanedMessage (JStr (u"Alice")) (u"hi") (JStr [])])
    by (vm_compute; reflexivity).
  exact (conj H (clean_data_text_not_blank _ _ _ _ H)).
Defined.

(** C4 as stated fails: a text with spaces around it is kept with them, so
    the stored text differs from its trimmed form. *)
Lemma clean_data_keeps_padding :
  clean_data [alice_padded] (u"Alice") 750
  = Ok [CleanedMessage (JStr (u"Alice")) (u" hi ") (JStr [])]
  ∧ py_strip (u" hi ") = u"hi"
  ∧ py_strip (u" hi ") ≠ u" hi ".
Proof. repeat split; vm_compute; congruence. Qed.

Lemma py_join_empty_parts items text :
  py_join_empty items = Ok text →
  ∃ parts, items = JStr <$> parts ∧ text = concat parts.
Proof.
  revert text. induction items as [|item items IH]; simpl; intros text.
  - intros [= <-]. by exists [].
  - destruct item as [| | | |s| |]; try done.
    destruct (py_join_empty items) as [rest|]; [|done]. simpl.
    intros [= <-]. destruct (IH rest eq_refl) as (parts & -> & ->).
    by exists (s :: parts).
Qed.

Lemma py_join_empty_concat parts :
  py_join_empty (JStr <$> parts) = Ok (concat parts).
Proof. induction parts as [|s parts IH]; csimpl; [done|]. by rewrite IH. Qed.





(** ** [generate_prompt] *)

Section PromptFacts.
Variable py_repr : json → str.

Lemma fold_left_join (sep : str) (rest : list str) : ∀ first,
  fold_left (λ acc item, acc ++ sep ++ item) rest first
  = first ++ concat ((sep ++.) <$> rest).
Proof.
  induction rest as [|item rest IH]; intros first; csimpl.
  - by rewrite app_nil_r.
  - by rewrite IH, <- !app_assoc.
Qed.

Lemma join_lines_cons (l : str) (rest : list str) :
  join_lines (l :: rest) = l ++ concat (([10%N] ++.) <$> rest).
Proof.
  revert l. induction rest as [|l' rest IH]; intros l.
  - simpl. by rewrite app_nil_r.
  - change (join_lines (l :: l' :: rest))
      with (l ++ [10%N] ++ join_lines (l' :: rest)).
    rewrite IH. reflexivity.
Qed.

Lemma py_join_newline (lines : list str) :
  py_join [10%N] lines = join_lines lines.
Proof.
  destruct lines as [|l rest]; [done|].
  unfold py_join. by rewrite fold_left_join, join_lines_cons.
Qed.

End PromptFacts.

(** Where the name handler stores a prompt, it is the prompt of the sample
    extracted from the stored export for the name given. *)
Lemma handle_interlocutor_name_prompt py_repr ext upd w w1 :
  handle_interlocutor_name py_repr ext upd w = (Ok CHAT_MODE, w1) →
  ∃ export cleaned,
    json_data (w_user_data w) = Some export
    ∧ (messages ← py_getitem export (u"messages");
       clean_data_of messages (message_text upd) DEFAULT_MESSAGES_COUNT)
      = Ok cleaned
    ∧ prompt (w_user_data w1)
      = Some (generate_prompt py_repr (message_text upd) cleaned).
Proof.
  unfold handle_interlocutor_name, mbind at 1, handler_bind, get_user_data.
  destruct (json_data (w_user_data w)) as [export|] eqn:Hdata; [|done].
  unfold try_except, mbind at 1, handler_bind, lift.
  destruct (py_getitem export (u"messages") ≫= _) as [[|c cs]|e] eqn:Hclean;
    [done| |done].
  unfold save_conversation. destruct (dump_error ext) as [e|].
  { by destruct (dump_opened ext). }
  intros [= <-]. by exists export, (c :: cs).
Qed.

(** C8: on a transcript of CleanedMessages as the specification has them
    (sender, date and text are strings) [generate_prompt] returns what the
    builder of the specification returns: each message rendered as
    [{from} ({date}): {text}], the lines joined by newlines in the order of
    the transcript, between the fixed parts of the template. On any other
    transcript it returns what that builder returns on the strings Python
    prints for the sender and the date of each dict. The prompt the name
    handler stores is a function of the stored export and the name alone:
    whatever else the user's data, the files and the outside world are, two
    calls that store a prompt store the same one. *)
Theorem generate_prompt_deterministic_rendering :
  (∀ py_repr name transcript,
     generate_prompt py_repr name (of_spec <$> transcript)
     = build_spec name transcript)
  ∧ (∀ py_repr name cleaned_data transcript,
       Forall2 (shows py_repr) cleaned_data transcript →
       generate_prompt py_repr name cleaned_data
       = build_spec name transcript)
  ∧ (∀ py_repr ext ext' upd upd' w w' w1 w1',
       json_data (w_user_data w) = json_data (w_user_data w') →
       message_text upd = message_text upd' →
       handle_interlocutor_name py_repr ext upd w = (Ok CHAT_MODE, w1) →
       handle_interlocutor_name py_repr ext' upd' w' = (Ok CHAT_MODE, w1') →
       prompt (w_user_data w1) = prompt (w_user_data w1')).
Proof.
  assert (Hshown : ∀ py_repr name cleaned_data transcript,
            Forall2 (shows py_repr) cleaned_data transcript →
            generate_prompt py_repr name cleaned_data
            = build_spec name transcript).
  { intros py_repr name cleaned_data transcript Hshows.
    unfold generate_prompt, build_spec. rewrite py_join_newline.
    assert (map (prompt_line py_repr) cleaned_data
            = render_spec <$> transcript) as ->; [|done].
    induction Hshows as [|c m cs ms (Hfrom & Hdate & Htext) _ IH]; [done|].
    cbn [map fmap list_fmap]. f_equal; [|exact IH].
    unfold prompt_line, render_spec. rewrite Htext.
    assert (∀ v s, prints py_repr v s → py_format py_repr v = s) as Hprints.
    { intros v s [->|[Hv ->]]; [done|]. by destruct v. }
    by rewrite (Hprints _ _ Hfrom), (Hprints _ _ Hdate). }
  split; [|split; [exact Hshown|]].
  - intros py_repr name transcript. apply Hshown.
    apply Forall2_fmap_l, Forall_Forall2_diag, Forall_forall.
    intros m _. repeat split; by left.
  - intros py_repr ext ext' upd upd' w w' w1 w1' Hdata Hname H1 H2.
    destruct (handle_interlocutor_name_prompt py_repr _ _ _ _ H1)
      as (export & cleaned & He & Hc & ->).
    destruct (handle_interlocutor_name_prompt py_repr _ _ _ _ H2)
      as (export' & cleaned' & He' & Hc' & ->).
    rewrite Hdata, He' in He. injection He as <-.
    rewrite Hname, Hc' in Hc. injection Hc as <-. by rewrite Hname.
Qed.

(** ** The handlers *)

(** The callbacks of [main] for a text that is no command. *)
Lemma route_chat_mode py_repr ext upd :
  route py_repr (Some CHAT_MODE) Text ext upd = Some (chat_mode ext upd).
Proof. reflexivity. Qed.

Lemma route_get_name py_repr ext upd :
  route py_repr (Some GET_NAME) Text ext upd
  = Some (handle_interlocutor_name py_repr ext upd).
Proof. reflexivity. Qed.

(** The two ways the completion fails: the call raises, or it returns a
    response whose content cannot be read. *)
Lemma completion_fails create style input e :
  completion create style input = Raise e ↔
  create (completion_request style input) = Raise e
  ∨ ∃ response, create (completion_request style input) = Ok response
                ∧ response_content response = Raise e.
Proof.
  unfold completion.
  destruct (create (completion_request style input)) as [response|e'];
    simpl; split.
  - eauto.
  - by intros [|(? & [= <-] & ?)].
  - intros [= <-]. by left.
  - by intros [[= <-]|(? & ? & ?)].
Qed.

(** C6: whatever way the completion fails (the call raises, or the response
    cannot be read), [get_ai_response] returns the fixed fallback text and
    logs the exception; [chat_mode] then records the turn and the fallback
    in the history, sends the fallback, and returns [CHAT_MODE], so the
    conversation stays in the chat state. *)
Theorem completion_failure_gives_fallback py_repr ext upd w h style e :
  history (w_user_data w) = Some h →
  prompt (w_user_data w) = Some style →
  completion (create ext) style (message_text upd) = Raise e →
  let w' :=
    {| w_user_data :=
         {| json_data := json_data (w_user_data w);
            prompt := Some style;
            history := Some (h ++ [Turn (u"user") (message_text upd);
                                   Turn (u"assistant") FALLBACK_REPLY]) |};
       w_sent := w_sent w ++ [FALLBACK_REPLY];
       w_log := w_log w ++ [LogError (u"OpenAI error: ") e];
       w_files := w_files w |} in
  get_ai_response (create ext) style (message_text upd)
  = (FALLBACK_REPLY, [LogError (u"OpenAI error: ") e])
  ∧ chat_mode ext upd w = (Ok CHAT_MODE, w')
  ∧ conversation_step py_repr (Some CHAT_MODE) Text ext upd w
    = (Some CHAT_MODE, w').
Proof.
  intros Hh Hp Hfail w'.
  assert (Hai : get_ai_response (create ext) style (message_text upd)
                = (FALLBACK_REPLY, [LogError (u"OpenAI error: ") e])).
  { unfold get_ai_response. by rewrite Hfail. }
  assert (Hchat : chat_mode ext upd w = (Ok CHAT_MODE, w')).
  { unfold chat_mode, history_append, mbind, handler_bind, get_user_data,
      set_user_data, lift, logger_error, reply_text, mret, handler_ret.
    simpl. rewrite Hh. simpl. rewrite Hp. simpl. rewrite Hai. simpl.
    subst w'. by rewrite <- app_assoc. }
  split; [done|]. split; [done|].
  unfold conversation_step. rewrite route_chat_mode.
  rewrite Hchat. by rewrite decide_False.
Qed.

Lemma completion_failure_gives_fallback_witness :
  history (w_user_data chatting) = Some []
  ∧ prompt (w_user_data chatting) = Some (u"p")
  ∧ completion (create quota_exceeded) (u"p") (u"hello")
    = Raise (OpenAIError (u"quota"))
  ∧ chat_mode quota_exceeded (Update (u"hello") 7) chatting
    = (Ok CHAT_MODE,
       {| w_user_data :=
            {| json_data := Some export_abc; prompt := Some (u"p");
               history := Some [Turn (u"user") (u"hello");
                                Turn (u"assistant") FALLBACK_REPLY] |};
          w_sent := [FALLBACK_REPLY];
          w_log := [LogError (u"OpenAI error: ") (OpenAIError (u"quota"))];
          w_files := ∅ |}).
Proof.
  refine (conj eq_refl (conj eq_refl (conj eq_refl _))).
  exact (proj1 (proj2
    (completion_failure_gives_fallback no_repr quota_exceeded
       (Update (u"hello") 7) chatting [] (u"p") (OpenAIError (u"quota"))
       eq_refl eq_refl eq_refl))).
Defined.

(** C7: when the export holds no message to keep for the name given, the
    handler sends the not-found notice, changes nothing else, and returns
    [GET_NAME]: the conversation stays in the state awaiting a name. *)
Theorem empty_transcript_stays_awaiting_name py_repr ext upd w export data :
  json_data (w_user_data w) = Some export →
  py_getitem export (u"messages") = Ok (JList data) →
  clean_data data (message_text upd) DEFAULT_MESSAGES_COUNT = Ok [] →
  let w' := reply_only (not_found_text (message_text upd)) w in
  handle_interlocutor_name py_repr ext upd w = (Ok GET_NAME, w')
  ∧ conversation_step py_repr (Some GET_NAME) Text ext upd w
    = (Some GET_NAME, w').
Proof.
  intros Hdata Hmsgs Hclean w'.
  assert (Hname : handle_interlocutor_name py_repr ext upd w = (Ok GET_NAME, w')).
  { unfold handle_interlocutor_name, mbind, handler_bind, get_user_data.
    rewrite Hdata. unfold try_except, lift. rewrite Hmsgs. simpl.
    by rewrite Hclean. }
  split; [done|].
  unfold conversation_step. rewrite route_get_name.
  rewrite Hname. by rewrite decide_False.
Qed.

Lemma empty_transcript_stays_awaiting_name_witness :
  json_data (w_user_data named) = Some export_abc
  ∧ py_getitem export_abc (u"messages") = Ok (JList [alice_hi; bob_yo; alice_blank])
  ∧ clean_data [alice_hi; bob_yo; alice_blank] (u"Carol") DEFAULT_MESSAGES_COUNT
    = Ok []
  ∧ conversation_step no_repr (Some GET_NAME) Text quota_exceeded
      (Update (u"Carol") 7) named
    = (Some GET_NAME, reply_only (not_found_text (u"Carol")) named).
Proof.
  refine (conj eq_refl (conj eq_refl (conj eq_refl _))).
  exact (proj2
    (empty_transcript_stays_awaiting_name no_repr quota_exceeded
       (Update (u"Carol") 7) named export_abc [alice_hi; bob_yo; alice_blank]
       eq_refl eq_refl eq_refl)).
Defined.

(** C9: without raw export data in the user's data the name handler sends
    the missing-data notice with the restart instruction, runs no
    extraction and changes nothing else, and returns [END]: the
    conversation is over. *)
Theorem missing_data_ends_conversation py_repr ext upd w :
  json_data (w_user_data w) = None →
  let w' := reply_only NO_DATA_TEXT w in
  handle_interlocutor_name py_repr ext upd w = (Ok END, w')
  ∧ conversation_step py_repr (Some GET_NAME) Text ext upd w = (None, w').
Proof.
  intros Hdata w'.
  assert (Hname : handle_interlocutor_name py_repr ext upd w = (Ok END, w')).
  { unfold handle_interlocutor_name, mbind, handler_bind, get_user_data.
    by rewrite Hdata. }
  split; [done|].
  unfold conversation_step. rewrite route_get_name.
  rewrite Hname. by rewrite decide_True.
Qed.

Lemma missing_data_ends_conversation_witness :
  json_data (w_user_data fresh_session) = None
  ∧ handle_interlocutor_name no_repr quota_exceeded (Update (u"Alice") 7)
      fresh_session
    = (Ok END, reply_only NO_DATA_TEXT fresh_session).
Proof.
  split; [reflexivity|].
  exact (proj1
    (missing_data_ends_conversation no_repr quota_exceeded
       (Update (u"Alice") 7) fresh_session eq_refl)).
Defined.

(** ** The object store *)

Module StoreFacts.

Lemma alloc_spec o h l h' :
  Store.alloc o h = (l, h') → h !! l = None ∧ h' = <[l := o]> h.
Proof.
  unfold Store.alloc. intros [= <- <-]. split; [|done].
  apply not_elem_of_dom, is_fresh.
Qed.

Lemma loop_inv_append h_in cleaned h acc record l h1 :
  Store.loop_inv h_in cleaned h →
  h !! cleaned = Some (Store.OList acc) →
  Store.alloc (Store.ODict record) h = (l, h1) →
  Store.loop_inv h_in cleaned (<[cleaned := Store.OList (acc ++ [Store.VRef l])]> h1).
Proof.
  intros (Hsub & Hfresh & acc' & Hacc' & Hnew & Hdup) Hacc
         [Hl ->]%alloc_spec.
  rewrite Hacc in Hacc'. injection Hacc' as <-.
  assert (cleaned ≠ l) as Hne by (intros ->; by rewrite Hacc in Hl).
  split; [|split; [done|]].
  - apply map_subseteq_spec. intros l0 o Hl0.
    assert (h !! l0 = Some o) as Hl0'
      by (by eapply map_subseteq_spec in Hsub).
    rewrite lookup_insert_ne by (intros ->; by rewrite Hfresh in Hl0).
    rewrite lookup_insert_ne by (intros ->; by rewrite Hl in Hl0').
    done.
  - exists (acc ++ [Store.VRef l]). rewrite lookup_insert_eq. split; [done|].
    split.
    + apply Forall_app. split.
      * eapply Forall_impl; [done|].
        intros v (l0 & d & -> & Hin & Hd). exists l0, d.
        split; [done|]. split; [done|].
        rewrite lookup_insert_ne by (intros ->; by rewrite Hacc in Hd).
        rewrite lookup_insert_ne by (intros ->; by rewrite Hl in Hd).
        done.
      * constructor; [|done]. exists l, record. split; [done|]. split.
        -- destruct (h_in !! l) as [o|] eqn:Hin; [|done].
           eapply map_subseteq_spec in Hin; [|done]. by rewrite Hl in Hin.
        -- rewrite lookup_insert_ne by done. by rewrite lookup_insert_eq.
    + apply NoDup_app. split; [done|]. split; [|apply NoDup_singleton].
      intros v Hv ->%list_elem_of_singleton.
      eapply Forall_forall in Hnew as (l0 & d & Heq & _ & Hd); [|done].
      injection Heq as <-. by rewrite Hl in Hd.
Qed.

Lemma clean_loop_inv name max data h_in cleaned i : ∀ h r h',
  Store.loop_inv h_in cleaned h →
  Store.clean_loop name max data cleaned i h = (r, h') →
  Store.loop_inv h_in cleaned h'.
Proof.
  induction i as [|j IH]; intros h r h' Hinv; simpl.
  - by intros [= _ <-].
  - destruct (h !! data) as [[items|]|] eqn:Hdata; try by intros [= _ <-].
    destruct (h !! cleaned) as [[acc|]|] eqn:Hacc; try by intros [= _ <-].
    destruct (items !! j) as [msg|]; [|by intros [= _ <-]].
    destruct (Z.of_nat (length acc) >=? max); [by intros [= _ <-]|].
    destruct (Store.clean_message name h msg) as [[record|]|e];
      [| by apply IH | by intros [= _ <-]].
    destruct (Store.alloc (Store.ODict record) h) as [l h1] eqn:Halloc.
    apply IH. by eapply loop_inv_append.
Qed.

Lemma loop_inv_start h cleaned h0 :
  Store.alloc (Store.OList []) h = (cleaned, h0) → Store.loop_inv h cleaned h0.
Proof.
  intros [Hfresh ->]%alloc_spec. split; [by apply insert_subseteq|].
  split; [done|]. exists []. rewrite lookup_insert_eq.
  split; [done|]. split; [constructor|apply NoDup_nil_2].
Qed.

(** *** The Store.store model computes what the tree model computes *)

Lemma reify_fuel_S n : ∀ h v j,
  Store.reify n h v = Some j → Store.reify (S n) h v = Some j.
Proof.
  induction n as [|n IH]; intros h v j; destruct v; try done.
  intros Hj. change (Store.reify (S n) h (Store.VRef l)) with
    (match h !! l with
     | Some (Store.OList items) => JList <$> mapM (Store.reify n h) items
     | Some (Store.ODict items) =>
       JDict <$> mapM (λ kv, pair kv.1 <$> Store.reify n h kv.2) items
     | None => None
     end) in Hj.
  change (Store.reify (S (S n)) h (Store.VRef l)) with
    (match h !! l with
     | Some (Store.OList items) => JList <$> mapM (Store.reify (S n) h) items
     | Some (Store.ODict items) =>
       JDict <$> mapM (λ kv, pair kv.1 <$> Store.reify (S n) h kv.2) items
     | None => None
     end).
  destruct (h !! l) as [[items|items]|]; [| |done].
  - apply fmap_Some in Hj as (js & Hjs & ->).
    apply fmap_Some. exists js. split; [|done].
    apply mapM_Some. apply mapM_Some in Hjs.
    eapply Forall2_impl; [done|]. intros ??; apply IH.
  - apply fmap_Some in Hj as (js & Hjs & ->).
    apply fmap_Some. exists js. split; [|done].
    apply mapM_Some. apply mapM_Some in Hjs.
    eapply Forall2_impl; [done|]. intros [k v] kj.
    intros (j & Hj & ->)%fmap_Some. apply fmap_Some. exists j.
    split; [by apply IH|done].
Qed.

Lemma reify_fuel_le n n' h v j :
  (n ≤ n')%nat → Store.reify n h v = Some j → Store.reify n' h v = Some j.
Proof. induction 1 as [|m Hle IHle]; [done|]. intros Hj. by apply reify_fuel_S, IHle. Qed.

Lemma reify_store_mono n : ∀ h h' v j,
  h ⊆ h' → Store.reify n h v = Some j → Store.reify n h' v = Some j.
Proof.
  induction n as [|n IH]; intros h h' v j Hsub; destruct v; try done.
  simpl. destruct (h !! l) as [o|] eqn:Hl; [|done].
  eapply map_subseteq_spec in Hl; [|done]. rewrite Hl.
  destruct o as [items|items].
  - intros (js & Hjs & ->)%fmap_Some. apply fmap_Some. exists js.
    split; [|done]. apply mapM_Some. apply mapM_Some in Hjs.
    eapply Forall2_impl; [done|]. intros ??. by apply IH.
  - intros (js & Hjs & ->)%fmap_Some. apply fmap_Some. exists js.
    split; [|done]. apply mapM_Some. apply mapM_Some in Hjs.
    eapply Forall2_impl; [done|]. intros [k v] kj.
    intros (j & Hj & ->)%fmap_Some. apply fmap_Some. exists j.
    split; [by eapply IH|done].
Qed.

Lemma repr_mono h h' v j : h ⊆ h' → Store.repr h v j → Store.repr h' v j.
Proof. intros Hsub [n Hn]. exists n. by eapply reify_store_mono. Qed.

Lemma repr_list_intro h l items js :
  h !! l = Some (Store.OList items) → Forall2 (Store.repr h) items js →
  Store.repr h (Store.VRef l) (JList js).
Proof.
  intros Hl Hitems.
  assert (∃ n, Forall2 (λ v j, Store.reify n h v = Some j) items js) as [n Hn].
  { clear Hl.
    induction Hitems as [|v j items js [n Hn] _ [m Hm]]; [by exists 0%nat|].
    exists (n `max` m)%nat. constructor.
    - eapply reify_fuel_le; [|exact Hn]. lia.
    - eapply Forall2_impl; [done|]. intros v' j' Hv.
      eapply reify_fuel_le; [|exact Hv]. lia. }
  exists (S n). simpl. rewrite Hl. apply fmap_Some. exists js.
  split; [by apply mapM_Some|done].
Qed.

Lemma repr_dict_intro h l d jd :
  h !! l = Some (Store.ODict d) → Forall2 (Store.repr_item h) d jd →
  Store.repr h (Store.VRef l) (JDict jd).
Proof.
  intros Hl Hitems.
  assert (∃ n, Forall2 (λ kv kj, pair kv.1 <$> Store.reify n h kv.2 = Some kj) d jd)
    as [n Hn].
  { clear Hl.
    induction Hitems as [|[k v] [k' j] d jd [Hk [n Hn]] _ [m Hm]];
      [by exists 0%nat|].
    simpl in *. subst k'. exists (n `max` m)%nat. constructor.
    - simpl. apply fmap_Some. exists j. split; [|done].
      eapply reify_fuel_le; [|exact Hn]. lia.
    - eapply Forall2_impl; [done|]. intros [k1 v1] kj.
      intros (j1 & Hj1 & ->)%fmap_Some. apply fmap_Some. exists j1.
      split; [|done]. eapply reify_fuel_le; [|exact Hj1]. lia. }
  exists (S n). simpl. rewrite Hl. apply fmap_Some. exists jd.
  split; [by apply mapM_Some|done].
Qed.

(** What a tree tells about the value it was read from. *)
Lemma repr_inv h v j :
  Store.repr h v j →
  match v with
  | Store.VNone => j = JNull
  | Store.VBool b => j = JBool b
  | Store.VInt z => j = JInt z
  | Store.VFloat f => j = JFloat f
  | Store.VStr s => j = JStr s
  | Store.VRef l =>
    (∃ items js, h !! l = Some (Store.OList items) ∧ j = JList js
                 ∧ Forall2 (Store.repr h) items js)
    ∨ (∃ d jd, h !! l = Some (Store.ODict d) ∧ j = JDict jd
               ∧ Forall2 (Store.repr_item h) d jd)
  end.
Proof.
  intros [n Hn]. destruct v; try (by destruct n; injection Hn as <-).
  destruct n as [|n]; [done|]. simpl in Hn.
  destruct (h !! l) as [[items|d]|]; [| |done].
  - left. apply fmap_Some in Hn as (js & Hjs & ->).
    exists items, js. split; [done|]. split; [done|].
    apply mapM_Some in Hjs. eapply Forall2_impl; [done|].
    intros ???. by exists n.
  - right. apply fmap_Some in Hn as (jd & Hjd & ->).
    exists d, jd. split; [done|]. split; [done|].
    apply mapM_Some in Hjd. eapply Forall2_impl; [done|].
    intros [k v] kj (j & Hj & ->)%fmap_Some. split; [done|]. by exists n.
Qed.

Lemma vdict_get_repr h d jd key :
  Forall2 (Store.repr_item h) d jd →
  match Store.vdict_get key d with
  | Some v => ∃ j, dict_get key jd = Some j ∧ Store.repr h v j
  | None => dict_get key jd = None
  end.
Proof.
  induction 1 as [|[k v] [k' j] d jd [Hk Hv] _ IH]; simpl in *; [done|].
  subst k'. destruct (decide (k = key)); [|done]. by exists j.
Qed.

Lemma veq_str_repr h v j name :
  Store.repr h v j → Store.veq_str v name = py_eq_str j name.
Proof.
  intros Hv%repr_inv. destruct v; subst; try done.
  by destruct Hv as [(? & ? & _ & -> & _)|(? & ? & _ & -> & _)].
Qed.

Lemma fragment_texts_repr h0 h entities jents :
  h0 ⊆ h → Forall2 (Store.repr h0) entities jents →
  Forall2 (Store.repr h0) (Store.fragment_texts h entities) (fragment_texts jents).
Proof.
  intros Hsub. unfold Store.fragment_texts, fragment_texts.
  induction 1 as [|v j entities jents Hv _ IH]; csimpl; [constructor|].
  apply repr_inv in Hv as Hshape. destruct v; subst; try done.
  destruct Hshape as [(items & js & Hl & -> & _)|(d & jd & Hl & -> & Hd)];
    simpl; eapply map_subseteq_spec in Hl; try done; rewrite Hl; csimpl;
    [done|].
  pose proof (vdict_get_repr h0 d jd (u"text") Hd) as Hget.
  destruct (Store.vdict_get (u"text") d) as [v|].
  - destruct Hget as (j & -> & Hj). by constructor.
  - by rewrite Hget.
Qed.

Lemma py_join_empty_repr h vs js :
  Forall2 (Store.repr h) vs js → Store.py_join_empty vs = py_join_empty js.
Proof.
  induction 1 as [|v j vs js Hv%repr_inv _ IH]; simpl; [done|].
  destruct v; subst; try done.
  - by rewrite IH.
  - by destruct Hv as [(? & ? & _ & -> & _)|(? & ? & _ & -> & _)].
Qed.

Lemma extract_text_repr h0 h d jd :
  h0 ⊆ h → Forall2 (Store.repr_item h0) d jd →
  Store.extract_text h d = extract_text jd.
Proof.
  intros Hsub Hd. unfold Store.extract_text, extract_text.
  pose proof (vdict_get_repr h0 d jd (u"text") Hd) as Hget.
  destruct (Store.vdict_get (u"text") d) as [v|]; [|by rewrite Hget].
  destruct Hget as (j & -> & Hj). apply repr_inv in Hj as Hshape.
  destruct v; subst; try done. simpl.
  destruct Hshape as [(items & js & Hl & -> & Hitems)|(? & ? & Hl & -> & _)];
    eapply map_subseteq_spec in Hl; try done; rewrite Hl; [|done].
  eapply py_join_empty_repr. by apply fragment_texts_repr.
Qed.

Lemma repr_str h s : Store.repr h (Store.VStr s) (JStr s).
Proof. by exists 0%nat. Qed.

Lemma clean_message_repr name h0 h msg jmsg :
  h0 ⊆ h → Store.repr h0 msg jmsg →
  sim_kept h0 (Store.clean_message name h msg) (clean_message name jmsg).
Proof.
  intros Hsub Hmsg. apply repr_inv in Hmsg as Hshape.
  unfold Store.clean_message, clean_message.
  destruct msg; subst; try done. simpl.
  destruct Hshape as [(? & ? & Hl & -> & _)|(d & jd & Hl & -> & Hd)];
    eapply map_subseteq_spec in Hl; try done; rewrite Hl; [done|].
  pose proof (vdict_get_repr h0 d jd (u"from") Hd) as Hfrom.
  destruct (Store.vdict_get (u"from") d) as [sender|]; [|by rewrite Hfrom].
  destruct Hfrom as (jsender & -> & Hsender).
  rewrite (veq_str_repr _ _ _ name Hsender).
  destruct (py_eq_str jsender name); [|done].
  rewrite (extract_text_repr h0 h d jd Hsub Hd).
  destruct (extract_text jd) as [text|e]; [|done]. simpl.
  destruct (str_truthy (py_strip text)); [|done]. simpl.
  constructor; [done|]. constructor; [split; [done|apply repr_str]|].
  constructor; [|constructor]. split; [done|]. simpl.
  pose proof (vdict_get_repr h0 d jd (u"date") Hd) as Hdate.
  destruct (Store.vdict_get (u"date") d) as [date|].
  - by destruct Hdate as (jdate & -> & Hjdate).
  - rewrite Hdate. apply repr_str.
Qed.

Lemma repr_item_mono h h' kv kj :
  h ⊆ h' → Store.repr_item h kv kj → Store.repr_item h' kv kj.
Proof. intros Hsub [Hk Hv]. split; [done|by eapply repr_mono]. Qed.

Lemma Forall2_rev {A B} (P : A → B → Prop) l k :
  Forall2 P l k → Forall2 P (rev l) (rev k).
Proof.
  induction 1; simpl; [constructor|].
  apply Forall2_app; [done|by constructor].
Qed.

Lemma fmap_rev {A B} (f : A → B) (l : list A) : f <$> rev l = rev (f <$> l).
Proof.
  induction l as [|x l IH]; csimpl; [done|]. by rewrite fmap_app, IH.
Qed.

Lemma clean_loop_refines name max data cleaned h_in items jitems i :
  h_in !! data = Some (Store.OList items) →
  Forall2 (Store.repr h_in) items jitems →
  (i ≤ length items)%nat →
  ∀ h acc cs,
    Store.loop_inv h_in cleaned h →
    h !! cleaned = Some (Store.OList acc) →
    Forall2 (Store.repr (delete cleaned h)) acc (Store.record_json <$> cs) →
    match Store.clean_loop name max data cleaned i h with
    | (Ok _, h') =>
      ∃ acc' cs',
        clean_loop name max (rev (take i jitems)) cs = Ok cs'
        ∧ h' !! cleaned = Some (Store.OList acc')
        ∧ Forall2 (Store.repr (delete cleaned h')) acc' (Store.record_json <$> cs')
    | (Raise e, _) =>
      clean_loop name max (rev (take i jitems)) cs = Raise e
    end.
Proof.
  intros Hdata Hitems. induction i as [|j IH]; intros Hi h acc cs Hinv Hacc Hcs.
  { simpl. eauto. }
  pose proof Hinv as (Hsub & Hfresh & _).
  assert (h !! data = Some (Store.OList items)) as Hdata'
    by (by eapply map_subseteq_spec in Hdata).
  destruct (lookup_lt_is_Some_2 items j) as [msg Hmsg]; [lia|].
  destruct (Forall2_lookup_l _ _ _ _ _ Hitems Hmsg) as (jmsg & Hjmsg & Hrepr).
  rewrite (take_S_r _ _ _ Hjmsg), rev_unit.
  cbn [Store.clean_loop clean_loop]. rewrite Hdata', Hacc, Hmsg.
  rewrite (Forall2_length _ _ _ Hcs), length_fmap.
  destruct (Z.of_nat (length cs) >=? max); [by eauto|].
  pose proof (clean_message_repr name h_in h msg jmsg Hsub Hrepr) as Hsim.
  unfold sim_kept in Hsim.
  destruct (Store.clean_message name h msg) as [[record|]|e],
           (clean_message name jmsg) as [[c|]|e']; try done; simpl.
  - set (l := fresh (dom h)).
    assert (Store.alloc (Store.ODict record) h
            = (l, <[l:=Store.ODict record]> h)) as Halloc by done.
    pose proof (loop_inv_append _ _ _ _ _ _ _ Hinv Hacc Halloc) as Hinv'.
    apply alloc_spec in Halloc as [Hl _].
    assert (cleaned ≠ l) as Hne by (intros ->; by rewrite Hacc in Hl).
    assert (delete cleaned h ⊆ <[l:=Store.ODict record]> (delete cleaned h))
      as Hgrow by (apply insert_subseteq; by rewrite lookup_delete_ne).
    apply (IH ltac:(lia) _ (acc ++ [Store.VRef l]) (cs ++ [c]));
      [done|by rewrite lookup_insert_eq|].
    rewrite delete_insert_eq, delete_insert_ne by done.
    rewrite fmap_app. apply Forall2_app.
    + eapply Forall2_impl; [done|]. intros ??. by apply repr_mono.
    + constructor; [|constructor].
      eapply repr_dict_intro; [by rewrite lookup_insert_eq|].
      eapply Forall2_impl; [done|]. intros ??. apply repr_item_mono.
      etrans; [|done]. apply map_subseteq_spec. intros l0 o Hl0.
      rewrite lookup_delete_ne by (intros ->; by rewrite Hfresh in Hl0).
      by eapply map_subseteq_spec in Hl0.
  - by apply (IH ltac:(lia) h acc cs).
  - by subst.
Qed.

(** On a store in which the list at [data] reads as the tree
    [JList jitems], the call on the store and the call on the tree agree:
    they raise the same exception, or return the same records. *)
Lemma clean_data_refines name max data h jitems :
  Store.repr h (Store.VRef data) (JList jitems) →
  match Store.clean_data data name max h with
  | (Ok out, h') =>
    ∃ cs, clean_data jitems name max = Ok cs
          ∧ Store.repr h' (Store.VRef out) (JList (Store.record_json <$> cs))
  | (Raise e, _) => clean_data jitems name max = Raise e
  end.
Proof.
  intros [(items & js & Hdata & [= <-] & Hitems)|(? & ? & _ & [=] & _)]%repr_inv.
  unfold Store.clean_data, clean_data. rewrite Hdata.
  destruct (Store.alloc (Store.OList []) h) as [cleaned h0] eqn:Hcleaned.
  pose proof (loop_inv_start _ _ _ Hcleaned) as Hinv.
  apply alloc_spec in Hcleaned as [Hfresh ->].
  pose proof (clean_loop_refines name max data cleaned h items jitems
                (length items) Hdata Hitems (le_n _) _ [] [] Hinv
                (lookup_insert_eq _ _ _) (Forall2_nil_2 _ _ _)) as Hloop.
  replace (take (length items) jitems) with jitems in Hloop
    by (by rewrite (Forall2_length _ _ _ Hitems), firstn_all).
  destruct (Store.clean_loop name max data cleaned (length items)
              (<[cleaned:=Store.OList []]> h)) as [[[]|e] h1];
    cbv beta iota in Hloop.
  - destruct Hloop as (acc' & cs' & -> & -> & Hcs').
    destruct (Store.alloc (Store.OList (rev acc')) h1) as [out h2] eqn:Hout.
    apply alloc_spec in Hout as [Hout ->].
    exists (rev cs'). split; [done|].
    eapply repr_list_intro; [by rewrite lookup_insert_eq|].
    rewrite fmap_rev. apply Forall2_rev.
    eapply Forall2_impl; [done|]. intros ??. apply repr_mono.
    etrans; [apply delete_subseteq|by apply insert_subseteq].
  - by rewrite Hloop.
Qed.
End StoreFacts.


(** C10: a call of [clean_data] writes no object that was in the store
    before it: the list it is given, the dicts of its messages and
    everything they refer to are afterwards what they were, whether the
    call returns or raises. The list it returns is an object that did not
    exist before, and its items are references to distinct dicts that did
    not exist before either. *)
Theorem clean_data_leaves_input_intact data name max h r h' :
  Store.clean_data data name max h = (r, h') →
  (∀ l o, h !! l = Some o → h' !! l = Some o)
  ∧ ∀ out, r = Ok out →
      h !! out = None
      ∧ ∃ items, h' !! out = Some (Store.OList items)
          ∧ NoDup items
          ∧ Forall (λ v, ∃ l d, v = Store.VRef l ∧ h !! l = None
                                ∧ h' !! l = Some (Store.ODict d)) items.
Proof.
  unfold Store.clean_data.
  destruct (h !! data) as [[items|d]|] eqn:Hdata;
    [| |intros [= <- <-]; split; [done|by intros ? [=]]].
  2:{ destruct (Store.alloc (Store.OList []) h) as [cleaned h0] eqn:Hcleaned.
      destruct (Store.alloc (Store.OList []) h0) as [out h1] eqn:Hout.
      apply StoreFacts.alloc_spec in Hcleaned as [Hc ->].
      apply StoreFacts.alloc_spec in Hout as [Ho ->].
      assert (out ≠ cleaned) as Hne
        by (intros ->; by rewrite lookup_insert_eq in Ho).
      rewrite lookup_insert_ne in Ho by done.
      intros [= <- <-]. split.
      - intros l o Hl.
        rewrite !lookup_insert_ne; [done|by intros ->; rewrite Hc in Hl
                                        |by intros ->; rewrite Ho in Hl].
      - intros ? [= <-]. split; [done|]. exists [].
        rewrite lookup_insert_eq. split; [done|].
        split; [apply NoDup_nil_2|constructor]. }
  destruct (Store.alloc (Store.OList []) h) as [cleaned h0] eqn:Hcleaned.
  destruct (Store.clean_loop name max data cleaned (length items) h0)
    as [r1 h1] eqn:Hloop.
  pose proof (StoreFacts.clean_loop_inv _ _ _ _ _ _ _ _ _
                (StoreFacts.loop_inv_start _ _ _ Hcleaned) Hloop)
    as (Hsub & Hfresh & acc & Hacc & Hnew & Hdup).
  destruct r1 as [[]|e].
  - rewrite Hacc.
    destruct (Store.alloc (Store.OList (rev acc)) h1) as [out h2] eqn:Hout.
    apply StoreFacts.alloc_spec in Hout as [Hout_fresh ->].
    intros [= <- <-]. split.
    + intros l o Hl. eapply map_subseteq_spec in Hl; [|done].
      rewrite lookup_insert_ne; [done|]. intros ->. by rewrite Hout_fresh in Hl.
    + intros ? [= <-]. split.
      * destruct (h !! out) as [o|] eqn:Hin; [|done].
        eapply map_subseteq_spec in Hin; [|done]. by rewrite Hout_fresh in Hin.
      * exists (rev acc). rewrite lookup_insert_eq. split; [done|].
        split; [by rewrite <- Permutation_rev|].
        apply Forall_rev. eapply Forall_impl; [done|].
        intros v (l & d & -> & Hl & Hd). exists l, d.
        split; [done|]. split; [done|].
        rewrite lookup_insert_ne; [done|]. intros ->. by rewrite Hout_fresh in Hd.
  - intros [= <- <-]. split; [|by intros ? [=]].
    intros l o Hl. by eapply map_subseteq_spec in Hl.
Qed.

Lemma clean_data_leaves_input_intact_witness :
  let run := Store.clean_data 3%positive (u"Alice") 750 sample_store in
  run.1 = Ok 6%positive
  ∧ (∀ l o, sample_store !! l = Some o → run.2 !! l = Some o)
  ∧ ∀ out, run.1 = Ok out →
      sample_store !! out = None
      ∧ ∃ items, run.2 !! out = Some (Store.OList items)
          ∧ NoDup items
          ∧ Forall (λ v, ∃ l d, v = Store.VRef l ∧ sample_store !! l = None
                                ∧ run.2 !! l = Some (Store.ODict d)) items.
Proof.
  split; [vm_compute; reflexivity|].
  exact (clean_data_leaves_input_intact 3%positive (u"Alice") 750 sample_store
           _ _ (surjective_pairing _)).
Defined.

(** * More properties of the code *)

(** ** [clean_data]: caps, errors, composition *)

(** X1: with a cap of zero or less [clean_data] returns the empty sample
    whatever the export holds; it reads no message, so not even an
    ill-typed one makes it raise. *)
Theorem clean_data_nonpositive_cap data name max :
  max ≤ 0 → clean_data data name max = Ok [].
Proof.
  intros Hmax. unfold clean_data. destruct (rev data) as [|msg rest]; [done|].
  destruct max; [done|lia|done].
Qed.

Lemma clean_data_nonpositive_cap_witness :
  0 ≤ 0 ∧ clean_data [alice_hi; alice_ill_typed] (u"Alice") 0 = Ok [].
Proof.
  split; [lia|].
  exact (clean_data_nonpositive_cap [alice_hi; alice_ill_typed] (u"Alice") 0
           (Z.le_refl 0)).
Defined.

Lemma py_join_empty_type_error items e :
  py_join_empty items = Raise e → e = TypeError.
Proof.
  induction items as [|item items IH]; simpl; [done|].
  destruct item; try by intros [= <-].
  destruct (py_join_empty items); simpl; [done|]. intros [= <-]. by apply IH.
Qed.

Lemma clean_message_type_error name msg e :
  clean_message name msg = Raise e → e = TypeError.
Proof.
  unfold clean_message. destruct msg as [| | | | | |d]; try done.
  destruct (dict_get (u"from") d) as [sender|]; [|done].
  destruct (py_eq_str sender name); [|done].
  unfold extract_text.
  destruct (dict_get (u"text") d) as [[| | | |t|entities|]|]; simpl;
    try done; try by destruct (str_truthy (py_strip _)).
  destruct (py_join_empty (fragment_texts entities)) as [text|e'] eqn:Hjoin;
    simpl; [by destruct (str_truthy (py_strip text))|].
  intros [= <-]. by eapply py_join_empty_type_error.
Qed.

Lemma clean_loop_raise name max msgs : ∀ acc e,
  clean_loop name max msgs acc = Raise e →
  Z.of_nat (length acc) < max
  ∧ Exists (λ msg, clean_message name msg = Raise e) msgs.
Proof.
  induction msgs as [|msg rest IH]; intros acc e; simpl; [done|].
  destruct (Z.geb_spec (Z.of_nat (length acc)) max) as [|Hroom]; [done|].
  destruct (clean_message name msg) as [[c|]|e'] eqn:Hmsg; simpl.
  - intros [_ Hrest]%IH. split; [lia|by right].
  - intros [_ Hrest]%IH. split; [lia|by right].
  - intros [= <-]. split; [lia|by left].
Qed.

(** X2: the only exception [clean_data] raises is [TypeError], only under
    a positive cap, and only when the export holds a dict of the requested
    sender whose ["text"] is a list with a dict fragment whose ["text"] is
    not a [str]. *)
Theorem clean_data_raises_only_type_error data name max e :
  clean_data data name max = Raise e →
  e = TypeError ∧ 0 < max
  ∧ ∃ d entities,
      JDict d ∈ data
      ∧ dict_get (u"from") d = Some (JStr name)
      ∧ dict_get (u"text") d = Some (JList entities)
      ∧ Exists (λ v, is_str v = false) (fragment_texts entities).
Proof.
  unfold clean_data.
  destruct (clean_loop name max (rev data) []) as [cleaned|e'] eqn:Hloop;
    [done|].
  simpl. intros [= <-].
  apply clean_loop_raise in Hloop as [Hmax (msg & Hin & Hmsg)%Exists_exists].
  split; [by eapply clean_message_type_error|]. split; [done|].
  destruct (proj1 (clean_message_raises name msg))
    as (d & entities & -> & Hfrom & Htext & Hbad); [by rewrite Hmsg|].
  exists d, entities. split; [|done].
  by apply list_elem_of_In, in_rev, list_elem_of_In.
Qed.

Lemma clean_data_raises_only_type_error_witness :
  clean_data [alice_hi; alice_ill_typed] (u"Alice") 5 = Raise TypeError
  ∧ TypeError = TypeError ∧ 0 < 5
  ∧ ∃ d entities,
      JDict d ∈ [alice_hi; alice_ill_typed]
      ∧ dict_get (u"from") d = Some (JStr (u"Alice"))
      ∧ dict_get (u"text") d = Some (JList entities)
      ∧ Exists (λ v, is_str v = false) (fragment_texts entities).
Proof.
  assert (H : clean_data [alice_hi; alice_ill_typed] (u"Alice") 5
              = Raise TypeError) by (vm_compute; reflexivity).
  exact (conj H (clean_data_raises_only_type_error _ _ _ _ H)).
Defined.

Lemma last_n_all {A} n (l : list A) : (length l ≤ n)%nat → last_n n l = l.
Proof. intros H. unfold last_n. by replace (length l - n)%nat with 0%nat by lia. Qed.

(** X3: when no message raises and the qualifying messages are no more
    than the cap, [clean_data] keeps every one of them, in input order. *)
Theorem clean_data_under_cap_keeps_all data name max :
  Forall (λ msg, raises (clean_message name msg) = false) data →
  Z.of_nat (length (filter (λ msg, qualifies name msg) data)) ≤ max →
  ∃ out, clean_data data name max = Ok out
         ∧ Forall2 (cleans name) (filter (λ msg, qualifies name msg) data) out.
Proof.
  intros Hdata Hlen. pose proof (kept_of_qualifying name data) as Hkept.
  exists (omap (keep name) data). split; [|done].
  rewrite clean_data_total by done. f_equal. apply last_n_all.
  rewrite <- (Forall2_length _ _ _ Hkept). lia.
Qed.

Lemma clean_data_under_cap_keeps_all_witness :
  Forall (λ msg, raises (clean_message (u"Alice") msg) = false)
         [alice_hi; bob_yo; alice_padded]
  ∧ Z.of_nat (length (filter (λ msg, qualifies (u"Alice") msg)
                             [alice_hi; bob_yo; alice_padded])) ≤ 2
  ∧ ∃ out, clean_data [alice_hi; bob_yo; alice_padded] (u"Alice") 2 = Ok out
      ∧ Forall2 (cleans (u"Alice"))
                (filter (λ msg, qualifies (u"Alice") msg)
                        [alice_hi; bob_yo; alice_padded]) out.
Proof.
  assert (H1 : Forall (λ msg, raises (clean_message (u"Alice") msg) = false)
                      [alice_hi; bob_yo; alice_padded])
    by (repeat constructor).
  assert (H2 : Z.of_nat (length (filter (λ msg, qualifies (u"Alice") msg)
                                        [alice_hi; bob_yo; alice_padded])) ≤ 2)
    by (vm_compute; discriminate).
  exact (conj H1 (conj H2
    (clean_data_under_cap_keeps_all _ (u"Alice") 2 H1 H2))).
Defined.

Lemma clean_message_record name msg c :
  cleans name msg c → clean_message name (Store.record_json c) = Ok (Some c).
Proof.
  intros Hc. pose proof (cleans_from _ _ _ Hc) as Hfrom.
  destruct (cleans_text _ _ _ Hc) as (_ & _ & _ & Htext).
  destruct c as [sender text date]. simpl in *. subst sender.
  unfold clean_message, Store.record_json. cbn [dict_get cm_from cm_text cm_date].
  unfold py_eq_str. rewrite bool_decide_eq_true_2 by done.
  by destruct (py_strip text).
Qed.

(** X4: cleaning a cleaned sample again, its records taken as the messages
    of an export, with the same name and a cap not below its length, gives
    the sample back. *)
Theorem clean_data_idempotent data name max max' out :
  clean_data data name max = Ok out →
  Z.of_nat (length out) ≤ max' →
  clean_data (Store.record_json <$> out) name max' = Ok out.
Proof.
  intros Hout Hlen.
  assert (Forall (λ c, clean_message name (Store.record_json c) = Ok (Some c)) out)
    as Hrec.
  { eapply Forall2_right; [by apply clean_data_selection|].
    intros msg c. apply clean_message_record. }
  assert (omap (keep name) (Store.record_json <$> out) = out) as Hkept.
  { clear Hout Hlen. induction Hrec as [|c cs Hc _ IH]; [done|].
    rewrite fmap_cons. cbn [omap list_omap]. rewrite IH.
    unfold keep. by rewrite Hc. }
  rewrite clean_data_total.
  - rewrite Hkept. f_equal. apply last_n_all. lia.
  - apply Forall_fmap. eapply Forall_impl; [done|].
    intros c Hc.
    change (raises (clean_message name (Store.record_json c)) = false).
    by rewrite Hc.
Qed.

Lemma clean_data_idempotent_witness :
  clean_data [alice_hi; bob_yo; alice_padded] (u"Alice") 5
  = Ok [CleanedMessage (JStr (u"Alice")) (u"hi") (JStr []);
        CleanedMessage (JStr (u"Alice")) (u" hi ") (JStr [])]
  ∧ 2 ≤ 2
  ∧ clean_data
      (Store.record_json <$>
         [CleanedMessage (JStr (u"Alice")) (u"hi") (JStr []);
          CleanedMessage (JStr (u"Alice")) (u" hi ") (JStr [])])
      (u"Alice") 2
    = Ok [CleanedMessage (JStr (u"Alice")) (u"hi") (JStr []);
          CleanedMessage (JStr (u"Alice")) (u" hi ") (JStr [])].
Proof.
  assert (H : clean_data [alice_hi; bob_yo; alice_padded] (u"Alice") 5
              = Ok [CleanedMessage (JStr (u"Alice")) (u"hi") (JStr []);
                    CleanedMessage (JStr (u"Alice")) (u" hi ") (JStr [])])
    by (vm_compute; reflexivity).
  exact (conj H (conj (Z.le_refl 2)
    (clean_data_idempotent _ (u"Alice") 5 2 _ H (Z.le_refl 2)))).
Defined.

Lemma cleans_date name msg c :
  cleans name msg c →
  ∃ d, msg = JDict d
       ∧ cm_date c = default (JStr []) (dict_get (u"date") d).
Proof.
  unfold cleans, clean_message. intros H.
  destruct msg as [| | | | | |d]; try done.
  destruct (dict_get (u"from") d) as [sender|]; [|done].
  destruct (py_eq_str sender name); [|done].
  destruct (extract_text d) as [text|]; [|done]. simpl in H.
  destruct (str_truthy (py_strip text)); [|done].
  injection H as <-. by exists d.
Qed.

(** X5: the ["date"] of every record is the value its message holds under
    ["date"], whatever it is (a [null] stays [null]); only a message
    without the key gets the empty [str]. *)
Theorem clean_data_date_passthrough data name max out :
  clean_data data name max = Ok out →
  ∃ kept, kept `sublist_of` data
    ∧ Forall2 (λ msg c,
        ∃ d, msg = JDict d
             ∧ match dict_get (u"date") d with
               | Some date => cm_date c = date
               | None => cm_date c = JStr []
               end) kept out.
Proof.
  intros Hout. eexists. split; [apply last_qualifying_sublist|].
  eapply Forall2_impl; [by apply clean_data_selection|].
  intros msg c (d & -> & Hdate)%cleans_date. exists d. split; [done|].
  by destruct (dict_get (u"date") d).
Qed.

Lemma clean_data_date_passthrough_witness :
  clean_data [alice_dated] (u"Alice") 5
  = Ok [CleanedMessage (JStr (u"Alice")) (u"hi") JNull]
  ∧ ∃ kept, kept `sublist_of` [alice_dated]
      ∧ Forall2 (λ msg c,
          ∃ d, msg = JDict d
               ∧ match dict_get (u"date") d with
                 | Some date => cm_date c = date
                 | None => cm_date c = JStr []
                 end) kept [CleanedMessage (JStr (u"Alice")) (u"hi") JNull].
Proof.
  assert (H : clean_data [alice_dated] (u"Alice") 5
              = Ok [CleanedMessage (JStr (u"Alice")) (u"hi") JNull])
    by (vm_compute; reflexivity).
  exact (conj H (clean_data_date_passthrough _ _ _ _ H)).
Defined.

Lemma omap_keep_filter name (data : list json) :
  omap (keep name) (filter (λ msg, qualifies name msg) data)
  = omap (keep name) data.
Proof.
  induction data as [|msg data IH]; [done|].
  rewrite filter_cons. destruct (decide (qualifies name msg)) as [Hq|Hq].
  - csimpl. by rewrite IH.
  - csimpl. rewrite IH. destruct (keep name msg) as [c|] eqn:Hc; [|done].
    exfalso. apply Hq, Is_true_true, qualifies_keep. eauto.
Qed.

(** X6: entries that do not qualify (no dict, another sender, no text, a
    blank text) have no influence: on an export none of whose messages
    raises, [clean_data] returns what it returns on the qualifying entries
    alone. *)
Theorem clean_data_ignores_the_rest data name max :
  Forall (λ msg, raises (clean_message name msg) = false) data →
  clean_data (filter (λ msg, qualifies name msg) data) name max
  = clean_data data name max.
Proof.
  intros Hdata. rewrite !clean_data_total; [|done|].
  - by rewrite omap_keep_filter.
  - apply Forall_forall. intros msg [_ Hin]%list_elem_of_filter.
    by eapply Forall_forall in Hdata.
Qed.

Lemma clean_data_ignores_the_rest_witness :
  Forall (λ msg, raises (clean_message (u"Alice") msg) = false)
         [JInt 3; alice_hi; bob_yo; alice_blank]
  ∧ clean_data (filter (λ msg, qualifies (u"Alice") msg)
                       [JInt 3; alice_hi; bob_yo; alice_blank]) (u"Alice") 5
    = clean_data [JInt 3; alice_hi; bob_yo; alice_blank] (u"Alice") 5.
Proof.
  assert (H : Forall (λ msg, raises (clean_message (u"Alice") msg) = false)
                     [JInt 3; alice_hi; bob_yo; alice_blank])
    by (repeat constructor).
  exact (conj H (clean_data_ignores_the_rest _ (u"Alice") 5 H)).
Defined.

(** X7: raising the cap only adds older messages: the sample for a cap is
    the end of the sample for any larger cap. *)
Theorem clean_data_cap_monotone data name max max' out out' :
  clean_data data name max = Ok out →
  clean_data data name max' = Ok out' →
  max ≤ max' →
  out `suffix_of` out'.
Proof.
  intros ->%clean_data_ok ->%clean_data_ok Hle. unfold last_n.
  set (q := omap (keep name) data).
  replace (length q - Z.to_nat max)%nat
    with ((length q - Z.to_nat max') + (Z.to_nat max' `min` length q
                                         - Z.to_nat max `min` length q))%nat
    by lia.
  rewrite <- drop_drop. apply suffix_drop.
Qed.

Lemma clean_data_cap_monotone_witness :
  clean_data [alice_hi; bob_yo; alice_padded] (u"Alice") 1
  = Ok [CleanedMessage (JStr (u"Alice")) (u" hi ") (JStr [])]
  ∧ clean_data [alice_hi; bob_yo; alice_padded] (u"Alice") 2
    = Ok [CleanedMessage (JStr (u"Alice")) (u"hi") (JStr []);
          CleanedMessage (JStr (u"Alice")) (u" hi ") (JStr [])]
  ∧ 1 ≤ 2
  ∧ [CleanedMessage (JStr (u"Alice")) (u" hi ") (JStr [])]
    `suffix_of` [CleanedMessage (JStr (u"Alice")) (u"hi") (JStr []);
                 CleanedMessage (JStr (u"Alice")) (u" hi ") (JStr [])].
Proof.
  assert (H1 : clean_data [alice_hi; bob_yo; alice_padded] (u"Alice") 1
               = Ok [CleanedMessage (JStr (u"Alice")) (u" hi ") (JStr [])])
    by (vm_compute; reflexivity).
  assert (H2 : clean_data [alice_hi; bob_yo; alice_padded] (u"Alice") 2
               = Ok [CleanedMessage (JStr (u"Alice")) (u"hi") (JStr []);
                     CleanedMessage (JStr (u"Alice")) (u" hi ") (JStr [])])
    by (vm_compute; reflexivity).
  assert (H3 : 1 ≤ 2) by lia.
  exact (conj H1 (conj H2 (conj H3
    (clean_data_cap_monotone _ _ _ _ _ _ H1 H2 H3)))).
Defined.

(** ** The completion adapter and [chat_mode] *)

Lemma response_content_ok response text :
  response_content response = Ok text ↔
  ∃ d choice others message content,
    response = JDict d
    ∧ dict_get (u"choices") d = Some (JList (JDict choice :: others))
    ∧ dict_get (u"message") choice = Some (JDict message)
    ∧ dict_get (u"content") message = Some (JStr content)
    ∧ text = py_strip content.
Proof.
  unfold response_content, py_getattr, py_first, py_getitem, py_strip_method.
  split.
  - destruct response as [| | | | | |d]; try done.
    destruct (dict_get (u"choices") d) as [choices|] eqn:Hchoices; [|done].
    simpl. destruct choices as [| | | |[|? ?]|[|first others]|]; try done.
    simpl. destruct first as [| | | | | |choice]; try done.
    destruct (dict_get (u"message") choice) as [message|] eqn:Hmessage; [|done].
    simpl. destruct message as [| | | | | |message]; try done.
    destruct (dict_get (u"content") message) as [content|] eqn:Hcontent; [|done].
    simpl. destruct content as [| | | |content| |m]; try done.
    + intros [= <-]. by exists d, choice, others, message, content.
    + by destruct (dict_get (u"strip") m).
  - intros (d & choice & others & message & content
            & -> & Hchoices & Hmessage & Hcontent & ->).
    rewrite Hchoices. simpl. rewrite Hmessage. simpl. by rewrite Hcontent.
Qed.

(** X8: [get_ai_response] returns a text without logging exactly when the
    call returns an object whose [choices] is a list that starts with an
    object whose [message] holds a [str] under ["content"]; the text is
    that content with the whitespace around it stripped, and the other
    choices are not looked at. *)
Theorem get_ai_response_reads_first_choice create style input text :
  get_ai_response create style input = (text, []) ↔
  ∃ d choice others message content,
    create (completion_request style input) = Ok (JDict d)
    ∧ dict_get (u"choices") d = Some (JList (JDict choice :: others))
    ∧ dict_get (u"message") choice = Some (JDict message)
    ∧ dict_get (u"content") message = Some (JStr content)
    ∧ text = py_strip content.
Proof.
  unfold get_ai_response, completion.
  destruct (create (completion_request style input)) as [response|e]; simpl.
  - destruct (response_content response) as [t|e] eqn:Hcontent.
    + split.
      * intros [= <-]. apply response_content_ok in Hcontent
          as (d & choice & others & message & content & -> & ?).
        by exists d, choice, others, message, content.
      * intros (d & choice & others & message & content & [= ->] & Hrest).
        assert (response_content (JDict d) = Ok text) as Hok
          by (apply response_content_ok; by exists d, choice, others, message, content).
        rewrite Hcontent in Hok. by injection Hok as ->.
    + split; [done|].
      intros (d & choice & others & message & content & [= ->] & Hrest).
      assert (response_content (JDict d) = Ok text) as Hok
        by (apply response_content_ok; by exists d, choice, others, message, content).
      by rewrite Hcontent in Hok.
  - split; [done|]. by intros (? & ? & ? & ? & ? & [=] & _).
Qed.

(** X9: a message in the chat state appends the user's turn and the
    assistant's turn to the history, sends the content of the assistant's
    turn as the reply, and returns [CHAT_MODE]. The reply is what
    [get_ai_response] gives for the stored prompt and the message alone:
    the history is not part of the request. *)
Theorem chat_mode_appends_exchange py_repr ext upd w h style :
  history (w_user_data w) = Some h →
  prompt (w_user_data w) = Some style →
  let answer := get_ai_response (create ext) style (message_text upd) in
  let w' :=
    {| w_user_data :=
         {| json_data := json_data (w_user_data w);
            prompt := Some style;
            history := Some (h ++ exchange (message_text upd, answer.1)) |};
       w_sent := w_sent w ++ [answer.1];
       w_log := w_log w ++ answer.2;
       w_files := w_files w |} in
  chat_mode ext upd w = (Ok CHAT_MODE, w')
  ∧ conversation_step py_repr (Some CHAT_MODE) Text ext upd w
    = (Some CHAT_MODE, w').
Proof.
  intros Hh Hp answer w'.
  assert (Hchat : chat_mode ext upd w = (Ok CHAT_MODE, w')).
  { unfold chat_mode, history_append, mbind, handler_bind, get_user_data,
      set_user_data, lift, logger_error, reply_text, mret, handler_ret.
    simpl. rewrite Hh. simpl. rewrite Hp. simpl.
    subst w' answer.
    destruct (get_ai_response (create ext) style (message_text upd))
      as [response logged]. simpl. by rewrite <- app_assoc. }
  split; [done|].
  unfold conversation_step. rewrite route_chat_mode.
  rewrite Hchat. by rewrite decide_False.
Qed.

Lemma chat_mode_appends_exchange_witness :
  history (w_user_data chatting) = Some []
  ∧ prompt (w_user_data chatting) = Some (u"p")
  ∧ chat_mode polite (Update (u"hello") 7) chatting
    = (Ok CHAT_MODE,
       {| w_user_data :=
            {| json_data := Some export_abc; prompt := Some (u"p");
               history := Some [Turn (u"user") (u"hello");
                                Turn (u"assistant") (u"hi there")] |};
          w_sent := [u"hi there"];
          w_log := [];
          w_files := ∅ |}).
Proof.
  refine (conj eq_refl (conj eq_refl _)).
  exact (proj1
    (chat_mode_appends_exchange no_repr polite (Update (u"hello") 7)
       chatting [] (u"p") eq_refl eq_refl)).
Defined.

(** X10: [chat_mode] without its keys. Without ["history"] it raises
    [KeyError] having changed nothing; with ["history"] but without
    ["prompt"] it raises [KeyError] after the user's turn was appended, so
    the history is left one turn longer and nothing is sent. Either way the
    conversation stays in the chat state. *)
Theorem chat_mode_missing_keys py_repr ext upd w :
  (history (w_user_data w) = None →
   chat_mode ext upd w = (Raise KeyError, w)
   ∧ conversation_step py_repr (Some CHAT_MODE) Text ext upd w
     = (Some CHAT_MODE, w))
  ∧ (∀ h,
       history (w_user_data w) = Some h →
       prompt (w_user_data w) = None →
       let w' :=
         {| w_user_data :=
              {| json_data := json_data (w_user_data w);
                 prompt := None;
                 history := Some (h ++ [Turn (u"user") (message_text upd)]) |};
            w_sent := w_sent w; w_log := w_log w; w_files := w_files w |} in
       chat_mode ext upd w = (Raise KeyError, w')
       ∧ conversation_step py_repr (Some CHAT_MODE) Text ext upd w
         = (Some CHAT_MODE, w')).
Proof.
  split.
  - intros Hh.
    assert (Hchat : chat_mode ext upd w = (Raise KeyError, w)).
    { unfold chat_mode, history_append, mbind, handler_bind, get_user_data, lift.
      by rewrite Hh. }
    split; [done|]. unfold conversation_step. rewrite route_chat_mode.
    by rewrite Hchat.
  - intros h Hh Hp w'.
    assert (Hchat : chat_mode ext upd w = (Raise KeyError, w')).
    { unfold chat_mode, history_append, mbind, handler_bind, get_user_data,
        set_user_data, lift.
      rewrite Hh. simpl. by rewrite Hp. }
    split; [done|]. unfold conversation_step. rewrite route_chat_mode.
    by rewrite Hchat.
Qed.

Lemma chat_mode_missing_keys_witness :
  history (w_user_data half_ready) = Some []
  ∧ prompt (w_user_data half_ready) = None
  ∧ chat_mode polite (Update (u"hello") 7) half_ready
    = (Raise KeyError,
       {| w_user_data :=
            {| json_data := None; prompt := None;
               history := Some [Turn (u"user") (u"hello")] |};
          w_sent := []; w_log := []; w_files := ∅ |}).
Proof.
  refine (conj eq_refl (conj eq_refl _)).
  exact (proj1
    (proj2 (chat_mode_missing_keys no_repr polite (Update (u"hello") 7)
              half_ready) [] eq_refl eq_refl)).
Defined.

(** ** [handle_json] *)

(** The [try] statement accepts a dict whose ["messages"] is a list, and
    rejects everything else, whatever went wrong. *)
Lemma handle_json_try_cases ext w :
  (∃ d msgs,
     received ext = Ok (JDict d)
     ∧ dict_get (u"messages") d = Some (JList msgs)
     ∧ handle_json_try ext w
       = (Ok GET_NAME,
          {| w_user_data := {| json_data := Some (JDict d);
                               prompt := prompt (w_user_data w);
                               history := history (w_user_data w) |};
             w_sent := w_sent w ++ [FILE_RECEIVED_TEXT];
             w_log := w_log w;
             w_files := w_files w |}))
  ∨ ((¬ ∃ d msgs, received ext = Ok (JDict d)
                  ∧ dict_get (u"messages") d = Some (JList msgs))
     ∧ ∃ reply logged,
         handle_json_try ext w
         = (Ok END, {| w_user_data := w_user_data w;
                       w_sent := w_sent w ++ [reply];
                       w_log := w_log w ++ logged;
                       w_files := w_files w |})).
Proof.
  unfold handle_json_try, handle_json_body, mbind, handler_bind, lift.
  destruct (received ext) as [data|e] eqn:Hreceived.
  2:{ right. split; [by intros (? & ? & ? & _)|].
      destruct e; simpl; try (by eexists _, [_]); eexists _, [].
      by rewrite app_nil_r. }
  destruct (py_contains (u"messages") data) as [[]|e] eqn:Hcontains.
  3:{ right. split.
      { intros (d & ? & [= ->] & _). done. }
      destruct e; simpl; try (by eexists _, [_]); eexists _, [].
      by rewrite app_nil_r. }
  2:{ right. split.
      { intros (d & ? & [= ->] & Hget). simpl in Hcontains.
        injection Hcontains as Hc. apply bool_decide_eq_false in Hc.
        apply Hc. by eexists. }
      simpl. eexists _, []. by rewrite app_nil_r. }
  destruct (py_getitem data (u"messages")) as [messages|e] eqn:Hmessages.
  2:{ right. split.
      { intros (d & ? & [= ->] & Hget). simpl in Hmessages.
        by rewrite Hget in Hmessages. }
      destruct e; simpl; try (by eexists _, [_]); eexists _, [].
      by rewrite app_nil_r. }
  simpl. destruct (is_list messages) eqn:Hlist; simpl.
  - left. destruct data as [| | | | | |d]; try done.
    destruct messages as [| | | | |msgs|]; try done. exists d, msgs.
    split; [done|]. simpl in Hmessages.
    destruct (dict_get (u"messages") d) as [v|]; [injection Hmessages as ->|done].
    done.
  - right. split.
    { intros (d & ? & [= ->] & Hget). simpl in Hmessages.
      rewrite Hget in Hmessages. by injection Hmessages as <-. }
    eexists _, []. by rewrite app_nil_r.
Qed.

(** What [finally] makes of the outcome of the [try] statement. *)
Lemma handle_json_drive_finally up ext upd w drive r0 w0 :
  handle_json_try (with_received ext (received_of up)) w = (r0, w0) →
  ∃ r drive',
    handle_json_drive up ext upd w drive = ((r, w0), drive')
    ∧ (∀ e, r = Raise e ↔
            removal_attempted up upd drive ∧ remove_error up = Some e)
    ∧ (r = r0 ∨ ∃ e, r = Raise e).
Proof.
  intros Hout.
  assert (∀ e, r0 ≠ Raise e) as Hok.
  { intros e ->.
    destruct (handle_json_try_cases (with_received ext (received_of up)) w)
      as [(? & ? & _ & _ & Heq)|(_ & ? & ? & Heq)]; by rewrite Hout in Heq. }
  unfold handle_json_drive, removal_attempted. rewrite Hout.
  destruct (get_file_error up) as [e1|] eqn:Hget.
  { eexists _, _. split; [done|]. split; [|by left].
    intros e. split; [by intros ?%Hok|by intros [[[=] _] _]]. }
  destruct (remove_error up) as [e3|] eqn:Hremove.
  2:{ exists r0.
      destruct (download_error up); [destruct (download_partial up)|];
        cbn [andb]; try case_bool_decide; eexists;
        (split; [done|]); (split; [|by left]);
        intros e; (split; [by intros ?%Hok|by intros [_ [=]]]). }
  destruct (download_error up) as [e2|] eqn:Hdown;
    [destruct (download_partial up) eqn:Hpartial|]; cbn [andb];
    case_bool_decide as Hin; try (exfalso; set_solver).
  all: eexists _, _; (split; [done|]).
  all: try (split; [|by right; eexists];
            intros e; split; [intros [= <-]; naive_solver|by intros [_ [= <-]]]).
  split; [|by left]. intros e. split; [by intros ?%Hok|].
  intros [[_ [[=]|[[=]|?]]] _]. done.
Qed.

(** X11: [handle_json] raises in two cases only. On an update without a
    message (an edited message) it raises [AttributeError] before anything
    has happened. On an update with a message it raises what [os.remove]
    raises, exactly when [finally] gets to call it and it fails; the
    exception then takes the place of the state to return, after the
    replies were sent and the export stored. Apart from that it returns
    [GET_NAME] exactly when the document loaded is a dict whose
    ["messages"] is a list, having stored the whole document under
    ["json_data"], left the prompt and the history as they were and sent
    one reply; in every other case (a download or decoding error, a missing
    key, another type) it returns [END] with the user's data and the
    archives untouched and one reply sent. *)
Theorem handle_json_accepts_exactly up ext w drive :
  handle_json up ext None w drive = ((Raise AttributeError, w), drive)
  ∧ ∀ upd, ∃ r w' drive',
      handle_json up ext (Some upd) w drive = ((r, w'), drive')
      ∧ (∀ e, r = Raise e ↔
              removal_attempted up upd drive ∧ remove_error up = Some e)
      ∧ ((∃ d msgs,
            received_of up = Ok (JDict d)
            ∧ dict_get (u"messages") d = Some (JList msgs)
            ∧ w' = {| w_user_data := {| json_data := Some (JDict d);
                                        prompt := prompt (w_user_data w);
                                        history := history (w_user_data w) |};
                      w_sent := w_sent w ++ [FILE_RECEIVED_TEXT];
                      w_log := w_log w;
                      w_files := w_files w |}
            ∧ (r = Ok GET_NAME ∨ ∃ e, r = Raise e))
         ∨ ((¬ ∃ d msgs, received_of up = Ok (JDict d)
                         ∧ dict_get (u"messages") d = Some (JList msgs))
            ∧ (∃ reply logged,
                 w' = {| w_user_data := w_user_data w;
                         w_sent := w_sent w ++ [reply];
                         w_log := w_log w ++ logged;
                         w_files := w_files w |})
            ∧ (r = Ok END ∨ ∃ e, r = Raise e))).
Proof.
  split; [done|]. intros upd. unfold handle_json.
  destruct (handle_json_try_cases (with_received ext (received_of up)) w)
    as [(d & msgs & Hreceived & Hmessages & Htry)
       |(Hinvalid & reply & logged & Htry)];
    destruct (handle_json_drive_finally up ext upd w drive _ _ Htry)
      as (r & drive' & Hdrive & Hraise & Hr);
    exists r; eexists; exists drive'; (split; [exact Hdrive|]);
    (split; [exact Hraise|]).
  - left. by exists d, msgs.
  - right. split; [done|]. split; [by exists reply, logged|done].
Qed.

Lemma handle_json_accepts_exactly_witness :
  handle_json jammed polite (Some (Update [] 7)) fresh_session ∅
  = ((Raise OSError,
      {| w_user_data := {| json_data := Some export_abc;
                           prompt := None; history := None |};
         w_sent := [FILE_RECEIVED_TEXT]; w_log := []; w_files := ∅ |}),
     {[ temp_path 7 ]})
  ∧ handle_json jammed polite None fresh_session ∅
    = ((Raise AttributeError, fresh_session), ∅).
Proof.
  split; [vm_compute; reflexivity|].
  exact (proj1 (handle_json_accepts_exactly jammed polite fresh_session ∅)).
Defined.

(** ** [handle_interlocutor_name] and [save_conversation] *)

(** X12: with a stored export from which [clean_data] returns a non-empty
    sample, and a dump that succeeds, the name handler writes the sample to
    the archive named after the user and the token, stores the prompt built
    from that sample, resets the history to the empty list, reports the
    number of messages found and returns [CHAT_MODE]. *)
Theorem name_accepted_starts_chat py_repr ext upd w export data c cs :
  json_data (w_user_data w) = Some export →
  py_getitem export (u"messages") = Ok (JList data) →
  clean_data data (message_text upd) DEFAULT_MESSAGES_COUNT = Ok (c :: cs) →
  dump_error ext = None →
  let w' :=
    {| w_user_data :=
         {| json_data := Some export;
            prompt := Some (generate_prompt py_repr (message_text upd) (c :: cs));
            history := Some [] |};
       w_sent := w_sent w
                 ++ [analysis_done_text (length (c :: cs)) (message_text upd)];
       w_log := w_log w;
       w_files := <[archive_name (from_user_id upd) (uuid4_hex ext)
                      := Dumped (c :: cs)]> (w_files w) |} in
  handle_interlocutor_name py_repr ext upd w = (Ok CHAT_MODE, w')
  ∧ conversation_step py_repr (Some GET_NAME) Text ext upd w
    = (Some CHAT_MODE, w').
Proof.
  intros Hdata Hmsgs Hclean Hdump w'.
  assert (Hname : handle_interlocutor_name py_repr ext upd w = (Ok CHAT_MODE, w')).
  { unfold handle_interlocutor_name, mbind, handler_bind, get_user_data.
    rewrite Hdata. unfold try_except, lift. rewrite Hmsgs. simpl.
    rewrite Hclean. unfold save_conversation. rewrite Hdump. simpl.
    by rewrite Hdata. }
  split; [done|].
  unfold conversation_step. rewrite route_get_name.
  rewrite Hname. by rewrite decide_False.
Qed.

Lemma name_accepted_starts_chat_witness :
  json_data (w_user_data named) = Some export_abc
  ∧ py_getitem export_abc (u"messages") = Ok (JList [alice_hi; bob_yo; alice_blank])
  ∧ clean_data [alice_hi; bob_yo; alice_blank] (u"Alice") DEFAULT_MESSAGES_COUNT
    = Ok [CleanedMessage (JStr (u"Alice")) (u"hi") (JStr [])]
  ∧ dump_error polite = None
  ∧ conversation_step no_repr (Some GET_NAME) Text polite (Update (u"Alice") 7) named
    = (Some CHAT_MODE,
       {| w_user_data :=
            {| json_data := Some export_abc;
               prompt := Some (generate_prompt no_repr (u"Alice")
                                 [CleanedMessage (JStr (u"Alice")) (u"hi") (JStr [])]);
               history := Some [] |};
          w_sent := [analysis_done_text 1 (u"Alice")];
          w_log := [];
          w_files := {[ archive_name 7 (u"0f")
                        := Dumped [CleanedMessage (JStr (u"Alice")) (u"hi")
                                     (JStr [])] ]} |}).
Proof.
  refine (conj eq_refl (conj eq_refl (conj eq_refl (conj eq_refl _)))).
  exact (proj2
    (name_accepted_starts_chat no_repr polite (Update (u"Alice") 7) named
       export_abc [alice_hi; bob_yo; alice_blank] _ [] eq_refl eq_refl eq_refl
       eq_refl)).
Defined.

(** X13: when the extraction raises, the name handler logs the exception,
    sends the processing-error notice and returns [END]; the user's data
    and the archives are as before. *)
Theorem extraction_error_ends_conversation py_repr ext upd w export data e :
  json_data (w_user_data w) = Some export →
  py_getitem export (u"messages") = Ok (JList data) →
  clean_data data (message_text upd) DEFAULT_MESSAGES_COUNT = Raise e →
  let w' :=
    {| w_user_data := w_user_data w;
       w_sent := w_sent w ++ [PROCESSING_ERROR_TEXT];
       w_log := w_log w ++ [LogError (u"Data processing error: ") e];
       w_files := w_files w |} in
  handle_interlocutor_name py_repr ext upd w = (Ok END, w')
  ∧ conversation_step py_repr (Some GET_NAME) Text ext upd w = (None, w').
Proof.
  intros Hdata Hmsgs Hclean w'.
  assert (Hname : handle_interlocutor_name py_repr ext upd w = (Ok END, w')).
  { unfold handle_interlocutor_name, mbind, handler_bind, get_user_data.
    rewrite Hdata. unfold try_except, lift. rewrite Hmsgs. simpl.
    by rewrite Hclean. }
  split; [done|].
  unfold conversation_step. rewrite route_get_name.
  rewrite Hname. by rewrite decide_True.
Qed.

Lemma extraction_error_ends_conversation_witness :
  json_data (w_user_data ill_typed_session) = Some ill_typed_export
  ∧ py_getitem ill_typed_export (u"messages") = Ok (JList [alice_hi; alice_ill_typed])
  ∧ clean_data [alice_hi; alice_ill_typed] (u"Alice") DEFAULT_MESSAGES_COUNT
    = Raise TypeError
  ∧ handle_interlocutor_name no_repr polite (Update (u"Alice") 7) ill_typed_session
    = (Ok END,
       {| w_user_data := w_user_data ill_typed_session;
          w_sent := [PROCESSING_ERROR_TEXT];
          w_log := [LogError (u"Data processing error: ") TypeError];
          w_files := ∅ |}).
Proof.
  refine (conj eq_refl (conj eq_refl (conj eq_refl _))).
  exact (proj1
    (extraction_error_ends_conversation no_repr polite (Update (u"Alice") 7)
       ill_typed_session ill_typed_export [alice_hi; alice_ill_typed] TypeError
       eq_refl eq_refl eq_refl)).
Defined.

(** X14: when writing the archive fails, the name handler logs the
    exception, sends the processing-error notice and returns [END], and
    stores neither a prompt nor a history. If the failure came once [open]
    had returned, a file holding only a part of the dump is left under the
    name of the archive, in place of whatever was there; if [open] itself
    failed, the files are as before. *)
Theorem save_error_ends_conversation py_repr ext upd w export data c cs e :
  json_data (w_user_data w) = Some export →
  py_getitem export (u"messages") = Ok (JList data) →
  clean_data data (message_text upd) DEFAULT_MESSAGES_COUNT = Ok (c :: cs) →
  dump_error ext = Some e →
  let w' :=
    {| w_user_data := w_user_data w;
       w_sent := w_sent w ++ [PROCESSING_ERROR_TEXT];
       w_log := w_log w ++ [LogError (u"Data processing error: ") e];
       w_files :=
         if dump_opened ext
         then <[archive_name (from_user_id upd) (uuid4_hex ext) := Partial]>
                (w_files w)
         else w_files w |} in
  handle_interlocutor_name py_repr ext upd w = (Ok END, w')
  ∧ conversation_step py_repr (Some GET_NAME) Text ext upd w = (None, w').
Proof.
  intros Hdata Hmsgs Hclean Hdump w'.
  assert (Hname : handle_interlocutor_name py_repr ext upd w = (Ok END, w')).
  { unfold handle_interlocutor_name, mbind, handler_bind, get_user_data.
    rewrite Hdata. unfold try_except, lift. rewrite Hmsgs. simpl.
    rewrite Hclean. unfold save_conversation. rewrite Hdump. subst w'.
    by destruct (dump_opened ext). }
  split; [done|].
  unfold conversation_step. rewrite route_get_name.
  rewrite Hname. by rewrite decide_True.
Qed.

Lemma save_error_ends_conversation_witness :
  json_data (w_user_data named) = Some export_abc
  ∧ py_getitem export_abc (u"messages") = Ok (JList [alice_hi; bob_yo; alice_blank])
  ∧ clean_data [alice_hi; bob_yo; alice_blank] (u"Alice") DEFAULT_MESSAGES_COUNT
    = Ok [CleanedMessage (JStr (u"Alice")) (u"hi") (JStr [])]
  ∧ dump_error disk_full = Some OSError
  ∧ handle_interlocutor_name no_repr disk_full (Update (u"Alice") 7) named
    = (Ok END,
       {| w_user_data := w_user_data named;
          w_sent := [PROCESSING_ERROR_TEXT];
          w_log := [LogError (u"Data processing error: ") OSError];
          w_files := {[ archive_name 7 (u"0f") := Partial ]} |}).
Proof.
  refine (conj eq_refl (conj eq_refl (conj eq_refl (conj eq_refl _)))).
  exact (proj1
    (save_error_ends_conversation no_repr disk_full (Update (u"Alice") 7) named
       export_abc [alice_hi; bob_yo; alice_blank] _ [] OSError
       eq_refl eq_refl eq_refl eq_refl)).
Defined.

(** The decimal digits of a number hold no underscore. *)
Lemma pretty_N_go_no_underscore x : ∀ s,
  "_"%char ∉ list_ascii_of_string s →
  "_"%char ∉ list_ascii_of_string (pretty_N_go x s).
Proof.
  induction (N.lt_wf_0 x) as [x _ IH]; intros s Hs.
  assert (x = 0 ∨ 0 < x)%N as [->|?] by lia.
  - by rewrite pretty_N_go_0.
  - rewrite pretty_N_go_step by done. apply IH; [by apply N.div_lt|].
    simpl. apply not_elem_of_cons. split; [|done].
    unfold pretty_N_char. by repeat case_match.
Qed.

Lemma py_str_int_no_underscore n : 95%N ∉ py_str_int n.
Proof.
  unfold py_str_int, of_string.
  assert ("_"%char ∉ list_ascii_of_string (pretty n)) as Hchar.
  { assert (∀ p : positive, "_"%char ∉ list_ascii_of_string (pretty p)) as Hpos.
    { intros p. unfold pretty, pretty_positive, pretty, pretty_N.
      case_decide; [done|]. apply pretty_N_go_no_underscore. simpl.
      apply not_elem_of_nil. }
    destruct n as [|p|p]; unfold pretty, pretty_Z.
    - simpl. set_solver.
    - apply Hpos.
    - simpl. apply not_elem_of_cons. split; [done|apply Hpos]. }
  intros Hin. apply Hchar.
  change (map N_of_ascii) with (fmap (M:=list) N_of_ascii) in Hin.
  apply list_elem_of_fmap in Hin as (c & Hc & Hin).
  replace "_"%char with c; [done|].
  rewrite <- (ascii_N_embedding c), <- Hc. reflexivity.
Qed.

Lemma py_str_int_inj n n' : py_str_int n = py_str_int n' → n = n'.
Proof.
  unfold py_str_int, of_string. intros H.
  apply (inj pretty).
  rewrite <- (string_of_list_ascii_of_string (pretty n)),
          <- (string_of_list_ascii_of_string (pretty n')).
  f_equal. revert H. generalize (list_ascii_of_string (pretty n)).
  generalize (list_ascii_of_string (pretty n')).
  intros l' l. revert l'. induction l as [|a l IH]; intros [|a' l']; try done.
  simpl. intros [= Ha Hl]. f_equal; [|by apply IH].
  by rewrite <- (ascii_N_embedding a), Ha, ascii_N_embedding.
Qed.

(** The name of an archive tells the user and the token apart. *)
Lemma archive_name_inj user_id token user_id' token' :
  archive_name user_id token = archive_name user_id' token' →
  user_id = user_id' ∧ token = token'.
Proof.
  unfold archive_name. intros H. apply app_inv_head in H.
  change (u"_") with [95%N] in H. simpl in H.
  apply not_elem_of_app_cons_inv_l in H as (Hid & _ & Htoken);
    [|apply py_str_int_no_underscore..].
  split; [by apply py_str_int_inj|]. by apply app_inv_tail in Htoken.
Qed.

(** X15: [save_conversation] touches one file only, whether it succeeds or
    fails: the file named after the user and the token, which after a
    success holds the whole dump and after a failure that came once [open]
    had returned a part of it. Every other file is as before, and since the
    name tells the user and the token apart, so is the archive of any other
    user or token; the user's data, the replies and the log are as
    before. *)
Theorem save_conversation_keeps_other_archives
    token failure opened user_id data w :
  ∃ r w',
    save_conversation token failure opened user_id data w = (r, w')
    ∧ (∀ path, path ≠ archive_name user_id token →
         w_files w' !! path = w_files w !! path)
    ∧ (∀ user_id' token',
         user_id' ≠ user_id ∨ token' ≠ token →
         w_files w' !! archive_name user_id' token'
         = w_files w !! archive_name user_id' token')
    ∧ w_user_data w' = w_user_data w
    ∧ w_sent w' = w_sent w
    ∧ w_log w' = w_log w
    ∧ match failure with
      | None =>
        r = Ok (archive_name user_id token)
        ∧ w_files w' !! archive_name user_id token = Some (Dumped data)
      | Some e =>
        r = Raise e
        ∧ w_files w' !! archive_name user_id token
          = if opened then Some Partial
            else w_files w !! archive_name user_id token
      end.
Proof.
  assert (∀ content path,
            path ≠ archive_name user_id token →
            <[archive_name user_id token := content]> (w_files w) !! path
            = w_files w !! path) as Hframe.
  { intros content path Hne. by apply lookup_insert_ne. }
  assert (∀ user_id' token',
            user_id' ≠ user_id ∨ token' ≠ token →
            archive_name user_id' token' ≠ archive_name user_id token)
    as Hother.
  { intros user_id' token' Hne [-> ->]%archive_name_inj. by destruct Hne. }
  unfold save_conversation. fold (archive_name user_id token).
  destruct failure as [e|]; [destruct opened|]; eexists _, _;
    (split; [reflexivity|]); cbn [w_files w_user_data w_sent w_log];
    repeat split; eauto using lookup_insert_eq.
  all: by apply lookup_insert_eq.
Qed.

(** ** What the conversations keep *)

Section SessionFacts.
Variable py_repr : json → str.

(** The state a chat is in when a callback is registered for an event. *)
Lemma registered_state conversation ev cb :
  registered conversation ev = Some cb →
  match cb with
  | Start => conversation = None
  | HandleJson => conversation = Some UPLOAD
  | HandleInterlocutorName => conversation = Some GET_NAME
  | ChatMode | ExitChat => conversation = Some CHAT_MODE
  | Cancel => is_Some conversation
  end.
Proof.
  unfold registered. destruct conversation as [state|].
  - destruct ev as [name| | |].
    + destruct (bool_decide (state = CHAT_MODE)) eqn:Hstate; cbn [andb].
      * apply bool_decide_eq_true in Hstate as ->.
        destruct (bool_decide (name = u"exit")); [by intros [= <-]|].
        destruct (decide (name = u"cancel")); by intros [= <-].
      * destruct (decide (name = u"cancel")); by intros [= <-].
    + destruct (decide (state = UPLOAD)) as [->|]; by intros [= <-].
    + done.
    + destruct (decide (state = GET_NAME)) as [->|]; [by intros [= <-]|].
      destruct (decide (state = CHAT_MODE)) as [->|]; by intros [= <-].
  - destruct ev as [name| | |]; try done.
    destruct (decide (name = u"start")); by intros [= <-].
Qed.

Lemma export_valid_ext w w' :
  json_data (w_user_data w') = json_data (w_user_data w) →
  export_valid w → export_valid w'.
Proof. unfold export_valid. by intros ->. Qed.

Lemma chat_ready_ext w w' :
  prompt (w_user_data w') = prompt (w_user_data w) →
  history (w_user_data w') = history (w_user_data w) →
  chat_ready py_repr w → chat_ready py_repr w'.
Proof. unfold chat_ready. by intros -> ->. Qed.

Lemma advances_same w w' :
  w_user_data w' = w_user_data w → advances py_repr w w'.
Proof.
  intros Hud. unfold advances, export_valid, chat_ready. rewrite Hud.
  repeat split; auto.
Qed.

Lemma advances_data_inv w w' :
  advances py_repr w w' → data_inv py_repr w → data_inv py_repr w'.
Proof.
  intros (Hvalid & Hready & Hdata & Hchat) [Hd Hc]. split.
  - destruct Hdata as [->|]; [|by right]. destruct Hd; [by left|right; auto].
  - destruct Hchat as [[-> ->]|]; [|by right].
    destruct Hc; [by left|right; auto].
Qed.

Lemma advances_state_inv state w w' :
  advances py_repr w w' → state_inv py_repr state w → state_inv py_repr state w'.
Proof.
  intros (Hvalid & Hready & _) [?|[[? ?]|(? & ? & ?)]].
  - by left.
  - right. left. auto.
  - right. right. auto.
Qed.

Lemma handle_json_try_advances ext w r w' :
  handle_json_try ext w = (r, w') →
  advances py_repr w w'
  ∧ (r = Ok END ∨ (r = Ok GET_NAME ∧ export_valid w')).
Proof.
  intros Htry.
  destruct (handle_json_try_cases ext w)
    as [(d & msgs & _ & Hmessages & Heq)|(_ & reply & logged & Heq)];
    rewrite Htry in Heq; injection Heq as -> ->.
  - assert (export_valid
              {| w_user_data := {| json_data := Some (JDict d);
                                   prompt := prompt (w_user_data w);
                                   history := history (w_user_data w) |};
                 w_sent := w_sent w ++ [FILE_RECEIVED_TEXT];
                 w_log := w_log w; w_files := w_files w |}) as Hvalid
      by (by exists d, msgs).
    split; [|by right]. split; [done|]. split; [by apply chat_ready_ext|].
    split; [by right|by left].
  - split; [by apply advances_same|by left].
Qed.

Lemma handle_interlocutor_name_advances ext upd w r w' :
  handle_interlocutor_name py_repr ext upd w = (r, w') →
  (r = Ok END ∧ w_user_data w' = w_user_data w)
  ∨ (r = Ok GET_NAME ∧ w_user_data w' = w_user_data w)
  ∨ (r = Ok CHAT_MODE
     ∧ json_data (w_user_data w') = json_data (w_user_data w)
     ∧ chat_ready py_repr w').
Proof.
  unfold handle_interlocutor_name, mbind at 1, handler_bind, get_user_data.
  destruct (json_data (w_user_data w)) as [export|] eqn:Hdata;
    [|intros [= <- <-]; by left].
  unfold try_except, mbind at 1, handler_bind, lift.
  destruct (py_getitem export (u"messages")) as [messages|e] eqn:Hmessages;
    [|intros [= <- <-]; by left].
  cbn [mbind result_bind].
  destruct (clean_data_of messages (message_text upd) DEFAULT_MESSAGES_COUNT)
    as [[|c cs]|e] eqn:Hclean;
    [intros [= <- <-]; right; by left| |intros [= <- <-]; by left].
  unfold save_conversation. destruct (dump_error ext) as [e|].
  { destruct (dump_opened ext); intros [= <- <-]; by left. }
  intros [= <- <-]. right. right. split; [done|]. split; [by rewrite Hdata|].
  destruct messages as [| | | | |msgs|]; try done.
  by exists msgs, (message_text upd), (c :: cs), [].
Qed.

Lemma chat_mode_ready ext upd w :
  chat_ready py_repr w →
  ∃ w', chat_mode ext upd w = (Ok CHAT_MODE, w')
        ∧ json_data (w_user_data w') = json_data (w_user_data w)
        ∧ chat_ready py_repr w'.
Proof.
  intros (msgs & name & cleaned & exchanges
          & Hclean & Hne & Hprompt & Hhistory).
  unfold chat_mode, history_append, mbind, handler_bind, get_user_data,
    set_user_data, lift, logger_error, reply_text, mret, handler_ret.
  simpl. rewrite Hhistory. simpl. rewrite Hprompt. simpl.
  destruct (get_ai_response (create ext) (generate_prompt py_repr name cleaned)
              (message_text upd)) as [response logged]. simpl.
  eexists. split; [done|]. split; [done|].
  exists msgs, name, cleaned, (exchanges ++ [(message_text upd, response)]).
  simpl. repeat split; try done.
  by rewrite bind_app, <- app_assoc.
Qed.

(** What a callback makes of the user's data in a state that satisfies
    [bot_inv], and which exceptions it can raise there. *)
Lemma run_callback_inv b d cb :
  bot_inv py_repr b →
  registered (conversations b !! d_chat d) (d_event d) = Some cb →
  ∃ r w' drive',
    run_callback py_repr cb d (b_world b) (b_drive b) = ((r, w'), drive')
    ∧ advances py_repr (b_world b) w'
    ∧ (∀ next, r = Ok next →
         next = END ∨ state_inv py_repr next w')
    ∧ match d_message d with
      | None => r = Raise AttributeError ∧ w' = b_world b ∧ drive' = b_drive b
      | Some upd =>
        ∀ e, r = Raise e ↔
             cb = HandleJson
             ∧ removal_attempted (d_upload d) upd (b_drive b)
             ∧ remove_error (d_upload d) = Some e
      end.
Proof.
  intros [Hdata Hstates] Hcb. apply registered_state in Hcb.
  unfold run_callback, handle_json.
  destruct (d_message d) as [upd|].
  2:{ exists (Raise AttributeError), (b_world b), (b_drive b).
      split; [by destruct cb|]. split; [by apply advances_same|].
      split; [done|done]. }
  destruct cb; cbn [call].
  - (* start *)
    eexists _, _, _. split; [reflexivity|].
    split; [by apply advances_same|]. split.
    + intros next [= <-]. right. by left.
    + intros e. split; [done|by intros [[=] _]].
  - (* handle_json *)
    destruct (handle_json_try (with_received (d_ext d) (received_of (d_upload d)))
                (b_world b)) as [r0 w0] eqn:Htry.
    destruct (handle_json_drive_finally (d_upload d) (d_ext d) upd (b_world b)
                (b_drive b) _ _ Htry) as (r & drive' & Hdrive & Hraise & Hr).
    destruct (handle_json_try_advances _ _ _ _ Htry) as [Hadv Hr0].
    exists r, w0, drive'. split; [done|]. split; [done|]. split.
    + intros next ->. destruct Hr as [<-|[e [=]]].
      destruct Hr0 as [[= ->]|[[= ->] Hvalid]]; [by left|].
      right. right. by left.
    + intros e. rewrite Hraise. naive_solver.
  - (* handle_interlocutor_name *)
    destruct (handle_interlocutor_name py_repr (d_ext d) upd (b_world b))
      as [r w'] eqn:Hname.
    assert (export_valid (b_world b)) as Hvalid.
    { by destruct (Hstates _ _ Hcb) as [[=]|[[_ ?]|[[=] _]]]. }
    exists r, w', (b_drive b). split; [done|].
    destruct (handle_interlocutor_name_advances _ _ _ _ _ Hname)
      as [[-> Hud]|[[-> Hud]|(-> & Hjson & Hready)]].
    + split; [by apply advances_same|]. split; [intros next [= <-]; by left|].
      intros e. split; [done|by intros [[=] _]].
    + split; [by apply advances_same|]. split.
      * intros next [= <-]. right. right. left. split; [done|].
        eapply export_valid_ext; [|done]. by rewrite Hud.
      * intros e. split; [done|by intros [[=] _]].
    + assert (export_valid w') as Hvalid'
        by (by eapply export_valid_ext).
      split; [|split].
      * split; [done|]. split; [done|]. split; [by left|by right].
      * intros next [= <-]. right. right. by right.
      * intros e. split; [done|by intros [[=] _]].
  - (* chat_mode *)
    destruct (Hstates _ _ Hcb) as [[=]|[[[=] _]|(_ & Hvalid & Hready)]].
    destruct (chat_mode_ready (d_ext d) upd _ Hready)
      as (w' & Hchat & Hjson & Hready').
    exists (Ok CHAT_MODE), w', (b_drive b). split; [by rewrite Hchat|].
    assert (export_valid w') as Hvalid' by (by eapply export_valid_ext).
    split; [|split].
    + split; [done|]. split; [done|]. split; [by left|by right].
    + intros next [= <-]. right. right. by right.
    + intros e. split; [done|by intros [[=] _]].
  - (* exit_chat *)
    eexists _, _, _. split; [reflexivity|].
    split; [by apply advances_same|]. split.
    + intros next [= <-]. by left.
    + intros e. split; [done|by intros [[=] _]].
  - (* cancel *)
    eexists _, _, _. split; [reflexivity|].
    split; [by apply advances_same|]. split.
    + intros next [= <-]. by left.
    + intros e. split; [done|by intros [[=] _]].
Qed.

(** One update keeps [bot_inv]. *)
Lemma bot_inv_step b d :
  bot_inv py_repr b → bot_inv py_repr (bot_step py_repr d b).
Proof.
  intros Hinv. unfold bot_step.
  destruct (registered (conversations b !! d_chat d) (d_event d))
    as [cb|] eqn:Hcb; [|done].
  destruct (run_callback_inv b d cb Hinv Hcb)
    as (r & w' & drive' & -> & Hadv & Hnext & _).
  destruct Hinv as [Hdata Hstates]. cbn [fst snd].
  split; cbn [b_world conversations]; [by eapply advances_data_inv|].
  intros chat state. destruct r as [next|e].
  - destruct (decide (next = END)) as [->|Hne].
    + intros [_ ?]%lookup_delete_Some. eapply advances_state_inv; eauto.
    + intros [[_ <-]|[_ ?]]%lookup_insert_Some.
      * by destruct (Hnext next eq_refl).
      * eapply advances_state_inv; eauto.
  - intros ?. eapply advances_state_inv; eauto.
Qed.

Lemma reachable_run ds : ∀ b,
  reachable py_repr b → reachable py_repr (run py_repr ds b).
Proof.
  induction ds as [|d ds IH]; intros b Hb; [done|].
  apply IH. by apply reachable_step.
Qed.
End SessionFacts.

(** X16: whatever updates a user sends, in however many chats, edited
    messages and failing removals of the temporary file included: the
    stored export, if there is one, is a dict whose ["messages"] is a list;
    the prompt and the history are both unset, or the prompt was built by
    [generate_prompt] from a non-empty sample [clean_data] returned and the
    history is a run of user-assistant exchanges; and every conversation is
    in [UPLOAD], in [GET_NAME] with an export stored, or in [CHAT_MODE]
    with an export, such a prompt and such a history stored. The export
    need not be the one the prompt was built from: an upload in another
    chat replaces it. *)
Theorem reachable_bot_inv py_repr b :
  reachable py_repr b → bot_inv py_repr b.
Proof.
  induction 1 as [files drive|b d _ IH]; [|by apply bot_inv_step].
  split; [by split; left|].
  intros chat state Hchat. cbn [conversations] in Hchat.
  by rewrite lookup_empty in Hchat.
Qed.

Lemma reachable_bot_inv_witness :
  reachable no_repr (run no_repr two_chats boot)
  ∧ conversations (run no_repr two_chats boot) !! 1 = Some CHAT_MODE
  ∧ conversations (run no_repr two_chats boot) !! 2 = Some GET_NAME
  ∧ json_data (w_user_data (b_world (run no_repr two_chats boot)))
    = Some export_bob
  ∧ bot_inv no_repr (run no_repr two_chats boot).
Proof.
  assert (H : reachable no_repr (run no_repr two_chats boot)).
  { apply reachable_run. apply (reachable_start no_repr ∅ ∅). }
  split; [exact H|].
  split; [vm_compute; reflexivity|].
  split; [vm_compute; reflexivity|].
  split; [vm_compute; reflexivity|].
  exact (reachable_bot_inv no_repr _ H).
Defined.

(** X17: in every state the updates of a user can lead to, a callback
    raises in two cases only: [AttributeError], with nothing changed, on an
    update without a message (an edited message), and what [os.remove]
    raises in the [finally] of [handle_json]. On an update with a message
    every other callback returns; in particular [chat_mode] finds its
    ["history"] and ["prompt"] keys, also after an upload in another
    chat. *)
Theorem reachable_handlers_raise_only py_repr b d cb :
  reachable py_repr b →
  registered (conversations b !! d_chat d) (d_event d) = Some cb →
  ∃ r w' drive',
    run_callback py_repr cb d (b_world b) (b_drive b) = ((r, w'), drive')
    ∧ match d_message d with
      | None => r = Raise AttributeError ∧ w' = b_world b ∧ drive' = b_drive b
      | Some upd =>
        ∀ e, r = Raise e ↔
             cb = HandleJson
             ∧ removal_attempted (d_upload d) upd (b_drive b)
             ∧ remove_error (d_upload d) = Some e
      end.
Proof.
  intros Hreach Hcb.
  assert (bot_inv py_repr b) as Hinv.
  { clear Hcb. induction Hreach as [files drive|b d' _ IH];
      [|by apply bot_inv_step].
    split; [by split; left|].
    intros chat state Hchat. cbn [conversations] in Hchat.
    by rewrite lookup_empty in Hchat. }
  destruct (run_callback_inv py_repr b d cb Hinv Hcb)
    as (r & w' & drive' & Hrun & _ & _ & Hraise).
  by exists r, w', drive'.
Qed.

Lemma reachable_handlers_raise_only_witness :
  reachable no_repr (run no_repr two_chats boot)
  ∧ registered (conversations (run no_repr two_chats boot) !! 1) Text
    = Some ChatMode
  ∧ ∃ r w' drive',
      run_callback no_repr ChatMode (sends 1 Text (u"hello") export_abc)
        (b_world (run no_repr two_chats boot))
        (b_drive (run no_repr two_chats boot))
      = ((r, w'), drive')
      ∧ ∀ e, r = Raise e ↔
             ChatMode = HandleJson
             ∧ removal_attempted (uploads export_abc) (Update (u"hello") 7)
                 (b_drive (run no_repr two_chats boot))
             ∧ remove_error (uploads export_abc) = Some e.
Proof.
  assert (H : reachable no_repr (run no_repr two_chats boot)).
  { apply reachable_run. apply (reachable_start no_repr ∅ ∅). }
  assert (Hcb : registered (conversations (run no_repr two_chats boot) !! 1) Text
                = Some ChatMode) by (vm_compute; reflexivity).
  exact (conj H (conj Hcb
    (reachable_handlers_raise_only no_repr _
       (sends 1 Text (u"hello") export_abc) ChatMode H Hcb))).
Defined.

Ltac solve_keeps :=
  unfold keeps; simpl;
  repeat match goal with
         | |- _ ∧ _ => split
         | |- ?l `prefix_of` ?l => reflexivity
         | |- ?l `prefix_of` ?l ++ _ => by apply prefix_app_r
         | |- ?l `prefix_of` (?l ++ _) ++ _ =>
           rewrite <- app_assoc; by apply prefix_app_r
         | |- dom ?m ⊆ dom ?m => reflexivity
         | |- dom ?m ⊆ dom (<[_:=_]> ?m) => rewrite dom_insert; set_solver
         | |- is_Some _ → is_Some _ =>
           first [done | by intros _; eexists | intros [? ?]; congruence]
         end.

Lemma handle_json_try_keeps ext w r w' :
  handle_json_try ext w = (r, w') → keeps w w'.
Proof.
  intros Htry.
  destruct (handle_json_try_cases ext w)
    as [(d & msgs & _ & _ & Heq)|(_ & reply & logged & Heq)];
    rewrite Htry in Heq; injection Heq as -> ->; solve_keeps.
Qed.

Lemma handle_interlocutor_name_keeps py_repr ext upd w r w' :
  handle_interlocutor_name py_repr ext upd w = (r, w') → keeps w w'.
Proof.
  unfold handle_interlocutor_name, mbind, handler_bind, get_user_data.
  destruct (json_data (w_user_data w)) as [export|] eqn:Hdata;
    [|intros [= <- <-]; solve_keeps].
  unfold try_except, lift.
  destruct (result_bind json _ _ (py_getitem export _)) as [[|c cs]|e];
    [intros [= <- <-]; solve_keeps| |intros [= <- <-]; solve_keeps].
  unfold save_conversation. destruct (dump_error ext) as [e|];
    [destruct (dump_opened ext)|]; intros [= <- <-]; solve_keeps.
Qed.

Lemma chat_mode_keeps ext upd w r w' :
  chat_mode ext upd w = (r, w') → keeps w w'.
Proof.
  unfold chat_mode, history_append, mbind, handler_bind, get_user_data,
    set_user_data, lift, logger_error, reply_text, mret, handler_ret.
  simpl. destruct (history (w_user_data w)) as [h|] eqn:Hh; simpl;
    [|intros [= <- <-]; solve_keeps].
  destruct (prompt (w_user_data w)) as [style|] eqn:Hp; simpl;
    [|intros [= <- <-]; solve_keeps].
  destruct (get_ai_response (create ext) style (message_text upd))
    as [response logged]. simpl. intros [= <- <-]; solve_keeps.
Qed.

Lemma run_callback_keeps py_repr cb d w drive r w' drive' :
  run_callback py_repr cb d w drive = ((r, w'), drive') → keeps w w'.
Proof.
  unfold run_callback, handle_json.
  destruct (d_message d) as [upd|];
    [|destruct cb; intros [= <- <- <-]; solve_keeps].
  destruct cb; cbn [call]; try (intros [= <- <- <-]; solve_keeps).
  - destruct (handle_json_try (with_received (d_ext d) (received_of (d_upload d)))
                w) as [r0 w0] eqn:Htry.
    destruct (handle_json_drive_finally (d_upload d) (d_ext d) upd w drive
                _ _ Htry) as (r1 & drive1 & -> & _).
    intros [= <- <- <-]. by eapply handle_json_try_keeps.
  - destruct (handle_interlocutor_name py_repr (d_ext d) upd w) eqn:Hname.
    intros [= <- <- <-]. by eapply handle_interlocutor_name_keeps.
  - destruct (chat_mode (d_ext d) upd w) eqn:Hchat.
    intros [= <- <- <-]. by eapply chat_mode_keeps.
Qed.

(** X18: no update removes anything. After any update, from any chat,
    handled or ignored, with or without a message, the replies and the log
    are those of before with more after them, every archive file is still
    there, and every key of the user's data that was set (the raw export,
    the prompt, the history) is still set, though an accepted upload or
    name puts a new value there. [/exit] and [/cancel] end the
    conversation of their chat and leave the user's data exactly as it
    was: the export, the prompt and the whole history stay stored. *)
Theorem bot_step_keeps py_repr d b :
  keeps (b_world b) (b_world (bot_step py_repr d b))
  ∧ (∀ cb,
       registered (conversations b !! d_chat d) (d_event d) = Some cb →
       cb = ExitChat ∨ cb = Cancel →
       w_user_data (b_world (bot_step py_repr d b)) = w_user_data (b_world b)
       ∧ (is_Some (d_message d) →
          conversations (bot_step py_repr d b) !! d_chat d = None)).
Proof.
  unfold bot_step. split.
  - destruct (registered (conversations b !! d_chat d) (d_event d)) as [cb|];
      [|solve_keeps].
    destruct (run_callback py_repr cb d (b_world b) (b_drive b))
      as [[r w'] drive'] eqn:Hrun.
    cbn [b_world fst snd]. by eapply run_callback_keeps.
  - intros cb -> Hcb. unfold run_callback.
    destruct (d_message d) as [upd|].
    + destruct Hcb as [-> | ->]; cbn [call]; simpl;
        (split; [done|]); intros _; apply lookup_delete_eq.
    + destruct Hcb as [-> | ->]; simpl; (split; [done|]); by intros [? [=]].
Qed.

Lemma bot_step_keeps_witness :
  keeps (b_world in_chat)
    (b_world (bot_step no_repr (sends 1 (Command (u"exit")) [] export_abc)
                in_chat))
  ∧ w_user_data
      (b_world (bot_step no_repr (sends 1 (Command (u"exit")) [] export_abc)
                  in_chat))
    = {| json_data := Some export_abc; prompt := Some (u"p");
         history := Some [] |}
  ∧ conversations
      (bot_step no_repr (sends 1 (Command (u"exit")) [] export_abc) in_chat)
    !! 1 = None.
Proof.
  split; [|split; vm_compute; reflexivity].
  exact (proj1 (bot_step_keeps no_repr
                  (sends 1 (Command (u"exit")) [] export_abc) in_chat)).
Defined.

(** On an update that carries a message and is not handed to
    [handle_json], the bot takes in the chat of the update the step
    [conversation_step] describes, and leaves the other chats and the
    drive alone. *)
Lemma bot_step_conversation_step py_repr d b upd :
  d_message d = Some upd →
  registered (conversations b !! d_chat d) (d_event d) ≠ Some HandleJson →
  ∃ conversation' w',
    conversation_step py_repr (conversations b !! d_chat d) (d_event d)
      (d_ext d) upd (b_world b) = (conversation', w')
    ∧ conversations (bot_step py_repr d b) !! d_chat d = conversation'
    ∧ (∀ chat, chat ≠ d_chat d →
         conversations (bot_step py_repr d b) !! chat = conversations b !! chat)
    ∧ b_world (bot_step py_repr d b) = w'
    ∧ b_drive (bot_step py_repr d b) = b_drive b.
Proof.
  intros Hmsg Hcb. unfold bot_step, conversation_step, route.
  destruct (registered (conversations b !! d_chat d) (d_event d)) as [cb|];
    [|by eexists _, _].
  assert (run_callback py_repr cb d (b_world b) (b_drive b)
          = (call py_repr cb (d_ext d) upd (b_world b), b_drive b)) as ->.
  { unfold run_callback. rewrite Hmsg. by destruct cb. }
  destruct (call py_repr cb (d_ext d) upd (b_world b)) as [[next|e] w'].
  - cbn [conversations b_world b_drive fst snd].
    destruct (decide (next = END)); eexists _, _; (split; [done|]).
    + split; [apply lookup_delete_eq|]. split; [|done].
      intros chat Hne. by apply lookup_delete_ne.
    + split; [apply lookup_insert_eq|]. split; [|done].
      intros chat Hne. by apply lookup_insert_ne.
  - by eexists _, _.
Qed.

(** ** The prompt of a sample *)

(** X19: in the prompt built from a sample [clean_data] returned for a
    name, every example line starts with that name: the line of a record is
    the name, its date in parentheses, a colon and its text. *)
Theorem prompt_of_sample_names_every_line py_repr data name max out :
  clean_data data name max = Ok out →
  generate_prompt py_repr name out
  = PROMPT_HEAD ++ name ++ PROMPT_EXAMPLES
    ++ join_lines ((λ c, name ++ u" (" ++ py_format py_repr (cm_date c)
                         ++ u"): " ++ cm_text c) <$> out)
    ++ PROMPT_RULES.
Proof.
  intros Hout. unfold generate_prompt. rewrite py_join_newline.
  assert (Forall (λ c, cm_from c = JStr name) out) as Hfrom.
  { eapply Forall2_right; [by apply clean_data_selection|].
    intros msg c. apply cleans_from. }
  change (map (prompt_line py_repr) out) with (prompt_line py_repr <$> out).
  do 5 f_equal. apply Forall_fmap_ext_1.
  eapply Forall_impl; [done|]. intros c Hc. unfold prompt_line. by rewrite Hc.
Qed.

Lemma prompt_of_sample_names_every_line_witness :
  clean_data [alice_hi; bob_yo; alice_padded] (u"Alice") 5
  = Ok [CleanedMessage (JStr (u"Alice")) (u"hi") (JStr []);
        CleanedMessage (JStr (u"Alice")) (u" hi ") (JStr [])]
  ∧ generate_prompt no_repr (u"Alice")
      [CleanedMessage (JStr (u"Alice")) (u"hi") (JStr []);
       CleanedMessage (JStr (u"Alice")) (u" hi ") (JStr [])]
    = PROMPT_HEAD ++ u"Alice" ++ PROMPT_EXAMPLES
      ++ join_lines
           ((λ c, u"Alice" ++ u" (" ++ py_format no_repr (cm_date c)
                  ++ u"): " ++ cm_text c)
              <$> [CleanedMessage (JStr (u"Alice")) (u"hi") (JStr []);
                   CleanedMessage (JStr (u"Alice")) (u" hi ") (JStr [])])
      ++ PROMPT_RULES.
Proof.
  assert (H : clean_data [alice_hi; bob_yo; alice_padded] (u"Alice") 5
              = Ok [CleanedMessage (JStr (u"Alice")) (u"hi") (JStr []);
                    CleanedMessage (JStr (u"Alice")) (u" hi ") (JStr [])])
    by (vm_compute; reflexivity).
  exact (conj H (prompt_of_sample_names_every_line no_repr _ _ _ _ H)).
Defined.

(** ** The temporary file *)

(** X20: once [get_file] has returned, and provided [os.remove] does not
    fail, [handle_json] leaves no temporary file behind on any path: after
    a download that failed, a document that does not decode, a document
    that is rejected and a document that is accepted alike, the user's
    temporary file is absent, the other files of the drive are as before,
    and the handler returns what it returns for the document received. *)
Theorem handle_json_removes_temp_file up ext upd w drive :
  get_file_error up = None →
  remove_error up = None →
  handle_json_drive up ext upd w drive
  = (handle_json_try (with_received ext (received_of up)) w,
     drive ∖ {[temp_path (from_user_id upd)]}).
Proof.
  intros Hget Hremove. unfold handle_json_drive. rewrite Hget, Hremove.
  destruct (download_error up) as [e|]; [destruct (download_partial up)|];
    cbn [andb]; try case_bool_decide; f_equal; set_solver.
Qed.

Lemma handle_json_removes_temp_file_witness :
  get_file_error broken_download = None
  ∧ remove_error broken_download = None
  ∧ handle_json_drive broken_download polite (Update [] 7) fresh_session
      {[ temp_path 7; u"Chats/7_0f.json" ]}
    = (handle_json_try (with_received polite (received_of broken_download))
         fresh_session,
       {[ temp_path 7; u"Chats/7_0f.json" ]} ∖ {[temp_path 7]}).
Proof.
  refine (conj eq_refl (conj eq_refl _)).
  exact (handle_json_removes_temp_file broken_download polite (Update [] 7)
           fresh_session _ eq_refl eq_refl).
Defined.

(** When [get_file] itself raises, [json_path] is never bound and
    [finally] removes nothing: the drive is left exactly as it was, a
    temporary file of an earlier run included. *)
Lemma handle_json_get_file_error_keeps_drive up ext upd w drive e :
  get_file_error up = Some e →
  handle_json_drive up ext upd w drive
  = (handle_json_try (with_received ext (Raise e)) w, drive).
Proof.
  intros Hget. unfold handle_json_drive, received_of. by rewrite Hget.
Qed.

Lemma handle_json_get_file_error_keeps_drive_witness :
  get_file_error no_connection = Some OSError
  ∧ handle_json_drive no_connection polite (Update [] 7) fresh_session
      {[ temp_path 7 ]}
    = (handle_json_try (with_received polite (Raise OSError)) fresh_session,
       {[ temp_path 7 ]}).
Proof.
  split; [reflexivity|].
  exact (handle_json_get_file_error_keeps_drive no_connection polite
           (Update [] 7) fresh_session _ OSError eq_refl).
Defined.

(** ** Sharing between the sample and the export *)

Lemma store_clean_message_shape name h msg record :
  Store.clean_message name h msg = Ok (Some record) →
  ∃ source message sender text,
    msg = Store.VRef source
    ∧ h !! source = Some (Store.ODict message)
    ∧ Store.vdict_get (u"from") message = Some sender
    ∧ record = [(u"from", sender); (u"text", Store.VStr text);
                (u"date", default (Store.VStr [])
                            (Store.vdict_get (u"date") message))].
Proof.
  unfold Store.clean_message, Store.as_dict.
  destruct msg as [| | | | |source]; try done.
  destruct (h !! source) as [[|message]|] eqn:Hsource; try done.
  destruct (Store.vdict_get (u"from") message) as [sender|] eqn:Hfrom; [|done].
  destruct (Store.veq_str sender name); [|done].
  destruct (Store.extract_text h message) as [text|]; [|done]. simpl.
  destruct (str_truthy (py_strip text)); [|done].
  intros [= <-]. by exists source, message, sender, text.
Qed.

Lemma shares_fields_insert items h v l o :
  h !! l = None → shares_fields items h v → shares_fields items (<[l := o]> h) v.
Proof.
  intros Hl (l0 & sender & text & date & source & message
             & -> & Hl0 & Hin & Hsource & Hrest).
  exists l0, sender, text, date, source, message.
  split; [done|]. split.
  { rewrite lookup_insert_ne; [done|]. intros ->. by rewrite Hl in Hl0. }
  split; [done|]. split; [|done].
  rewrite lookup_insert_ne; [done|]. intros ->. by rewrite Hl in Hsource.
Qed.

Lemma shares_fields_update_list items h v l old new :
  h !! l = Some (Store.OList old) →
  shares_fields items h v →
  shares_fields items (<[l := Store.OList new]> h) v.
Proof.
  intros Hl (l0 & sender & text & date & source & message
             & -> & Hl0 & Hin & Hsource & Hrest).
  exists l0, sender, text, date, source, message.
  split; [done|]. split.
  { rewrite lookup_insert_ne; [done|]. intros ->. by rewrite Hl in Hl0. }
  split; [done|]. split; [|done].
  rewrite lookup_insert_ne; [done|]. intros ->. by rewrite Hl in Hsource.
Qed.

Lemma store_clean_loop_shares name max data cleaned items i : ∀ h r h',
  data ≠ cleaned →
  h !! data = Some (Store.OList items) →
  (∃ acc, h !! cleaned = Some (Store.OList acc)
          ∧ Forall (shares_fields items h) acc) →
  Store.clean_loop name max data cleaned i h = (r, h') →
  ∃ acc, h' !! cleaned = Some (Store.OList acc)
         ∧ Forall (shares_fields items h') acc.
Proof.
  induction i as [|j IH]; intros h r h' Hne Hdata (acc & Hacc & Hshares); simpl.
  { intros [= _ <-]. eauto. }
  rewrite Hdata, Hacc.
  destruct (items !! j) as [msg|] eqn:Hmsg; [|intros [= _ <-]; eauto].
  destruct (Z.of_nat (length acc) >=? max); [intros [= _ <-]; eauto|].
  destruct (Store.clean_message name h msg) as [[record|]|e] eqn:Hclean;
    [| by apply IH; eauto | intros [= _ <-]; eauto].
  destruct (store_clean_message_shape _ _ _ _ Hclean)
    as (source & message & sender & text & -> & Hsource & Hfrom & ->).
  set (l := fresh (dom h)).
  assert (h !! l = None) as Hl by apply not_elem_of_dom, is_fresh.
  assert (cleaned ≠ l) as Hcl by (intros ->; by rewrite Hacc in Hl).
  apply IH; [done| |].
  - rewrite !lookup_insert_ne; [done|by intros ->; rewrite Hdata in Hl|done].
  - eexists. split; [by rewrite lookup_insert_eq|].
    apply Forall_app. split.
    + eapply Forall_impl; [done|]. intros v Hv.
      eapply shares_fields_update_list;
        [by rewrite lookup_insert_ne|by apply shares_fields_insert].
    + constructor; [|done].
      eexists l, sender, text, _, source, message.
      split; [done|]. split.
      { rewrite lookup_insert_ne by done. by rewrite lookup_insert_eq. }
      split; [by eapply list_elem_of_lookup_2|]. split; [|done].
      rewrite lookup_insert_ne by (intros ->; by rewrite Hacc in Hsource).
      rewrite lookup_insert_ne by (intros ->; by rewrite Hl in Hsource).
      done.
Qed.

(** X21: the records are shallow: each dict of the returned list holds
    under ["from"] and ["date"] the very values of a message dict of the
    input list, not copies, so a date that is a list or a dict is one
    object shared by the export and the sample; only the list, the dicts
    and the text are new. *)
Theorem clean_data_shares_field_values data name max h out h' items :
  h !! data = Some (Store.OList items) →
  Store.clean_data data name max h = (Ok out, h') →
  ∃ records, h' !! out = Some (Store.OList records)
             ∧ Forall (shares_fields items h') records.
Proof.
  intros Hdata. unfold Store.clean_data. rewrite Hdata.
  set (cleaned := fresh (dom h)).
  assert (h !! cleaned = None) as Hcleaned by apply not_elem_of_dom, is_fresh.
  cbn [Store.alloc]. fold cleaned.
  destruct (Store.clean_loop name max data cleaned (length items)
              (<[cleaned:=Store.OList []]> h)) as [[[]|e] h1] eqn:Hloop; [|done].
  assert (data ≠ cleaned) as Hne by (intros ->; by rewrite Hdata in Hcleaned).
  destruct (store_clean_loop_shares name max data cleaned items (length items)
              (<[cleaned:=Store.OList []]> h) (Ok ()) h1 Hne)
    as (acc & Hacc & Hshares); [| |done|].
  { by rewrite lookup_insert_ne. }
  { exists []. by rewrite lookup_insert_eq. }
  rewrite Hacc. intros [= <- <-]. exists (rev acc).
  split; [by rewrite lookup_insert_eq|].
  apply Forall_rev. eapply Forall_impl; [done|]. intros v.
  apply shares_fields_insert, not_elem_of_dom, is_fresh.
Qed.

Lemma clean_data_shares_field_values_witness :
  let run := Store.clean_data 3%positive (u"Alice") 750 dated_store in
  dated_store !! 3%positive = Some (Store.OList [Store.VRef 2])
  ∧ run = (Ok 6%positive, run.2)
  ∧ run.2 !! 5%positive
    = Some (Store.ODict [(u"from", Store.VStr (u"Alice"));
                         (u"text", Store.VStr (u"hi"));
                         (u"date", Store.VRef 1)])
  ∧ ∃ records, run.2 !! 6%positive = Some (Store.OList records)
               ∧ Forall (shares_fields [Store.VRef 2] run.2) records.
Proof.
  assert (H : Store.clean_data 3%positive (u"Alice") 750 dated_store
              = (Ok 6%positive,
                 (Store.clean_data 3%positive (u"Alice") 750 dated_store).2))
    by (vm_compute; reflexivity).
  refine (conj eq_refl (conj H (conj _ _))); [vm_compute; reflexivity|].
  exact (clean_data_shares_field_values 3%positive (u"Alice") 750 dated_store
           6%positive _ [Store.VRef 2] eq_refl H).
Defined.
